(** * discord-images-downloader: a shallow embedding of [main.py]

    The script drives a Chrome session through Selenium, scrolls a channel
    until it stops growing ([scroll_to_bottom]), then fetches every link that
    points at the CDN ([download_images]).  Every call that leaves the Python
    process (browser, clock, HTTP client, file system, logger) is an
    operation of the signature [op]; a program is a finite tree of such
    operations ([prog]) and is run against an arbitrary environment
    ([handler]).  Theorems quantify over every environment. *)

From Stdlib Require Import ZArith QArith Qround String Ascii List Lia.
From Stdlib Require Import Init.Byte.
From stdpp Require Import base gmap strings list pretty.

Local Open Scope string_scope.
Local Open Scope list_scope.
Local Open Scope Z_scope.

(** ** Python values the script handles *)

(** Exception classes the script names or can meet, with the one subclass
    relation it relies on: [HTTPError] (raised by [raise_for_status]) is a
    [RequestException]. *)
Inductive exn_class : Type :=
| RequestException
| HTTPError
| WebDriverException
| FileNotFoundError
| OSError
| ValueError
| UnboundLocalError
| OtherException.

Record exn : Type := Exn { exn_class_of : exn_class; exn_msg : string }.

(** [except requests.exceptions.RequestException] *)
Definition is_request_exception (e : exn) : bool :=
  match exn_class_of e with
  | RequestException | HTTPError => true
  | _ => false
  end.

(** A call either returns or raises. *)
Inductive result (A : Type) : Type :=
| Ok (a : A)
| Raise (e : exn).
Arguments Ok {A} a.
Arguments Raise {A} e.

(** What [execute_script] hands back: [None] or an integer. *)
Inductive jsval : Type :=
| JsNull
| JsNum (z : Z).

Definition jsval_eqb (a b : jsval) : bool :=
  match a, b with
  | JsNull, JsNull => true
  | JsNum x, JsNum y => Z.eqb x y
  | _, _ => false
  end.

(** [f"{v}"] *)
Definition jsval_str (v : jsval) : string :=
  match v with
  | JsNull => "None"
  | JsNum z => pretty z
  end.

Inductive driver : Type := Driver (session : nat).
Inductive element : Type := WebElement (id : nat).

(** The part of [requests.Response] the script and [raise_for_status] read. *)
Record response : Type := Response {
  status_code : Z;
  reason : string;
  resp_url : string;
  content : list byte
}.

Inductive level : Type := DEBUG | INFO | WARNING | ERROR.

(** ** Operations on the outside world *)

Inductive op : Type -> Type :=
| LogMsg (lvl : level) (msg : string) : op unit
| LogSetLevel (lvl : level) : op unit
| TimeTime : op Q
| TimeSleep (secs : Q) : op (result unit)
| ExecuteScript (d : driver) (script : string) : op (result jsval)
| FindElements (d : driver) (by_ value : string) : op (result (list element))
| GetAttribute (e : element) (name : string) : op (result (option string))
| RequestsGet (url : string) (timeout : Z) : op (result response)
| Makedirs (path : string) : op (result unit)
| OpenWb (path : string) : op (result unit)
| FileWrite (path : string) (data : list byte) : op (result unit)
| FileClose (path : string) : op (result unit)
| AbsExpandUser (path : string) : op string
| PathExists (path : string) : op bool
| ChromeNew (arguments : list string) : op (result driver)
| DriverGet (d : driver) (url : string) : op (result unit)
| DriverQuit (d : driver) : op (result unit).

(** A program: a value, or an operation and what to do with its answer. *)
Inductive prog (A : Type) : Type :=
| Ret (a : A)
| Vis {X : Type} (o : op X) (k : X -> prog A).
Arguments Ret {A} a.
Arguments Vis {A X} o k.

Fixpoint bind {A B : Type} (m : prog A) (f : A -> prog B) : prog B :=
  match m with
  | Ret a => f a
  | Vis o k => Vis o (fun x => bind (k x) f)
  end.

Definition call {X : Type} (o : op X) : prog X := Vis o Ret.

#[global] Instance prog_ret : MRet prog := @Ret.
#[global] Instance prog_bind : MBind prog := fun A B f m => bind m f.

(** One answered operation: the call and what came back. *)
Inductive event : Type :=
| ELog (lvl : level) (msg : string)
| ESetLevel (lvl : level)
| ETime (now : Q)
| ESleep (secs : Q) (r : result unit)
| EScript (d : driver) (script : string) (r : result jsval)
| EFind (d : driver) (by_ value : string) (r : result (list element))
| EAttr (e : element) (name : string) (r : result (option string))
| EGet (url : string) (timeout : Z) (r : result response)
| EMakedirs (path : string) (r : result unit)
| EOpen (path : string) (r : result unit)
| EWrite (path : string) (data : list byte) (r : result unit)
| EClose (path : string) (r : result unit)
| EAbs (path abs : string)
| EExists (path : string) (b : bool)
| EChrome (arguments : list string) (r : result driver)
| ENavigate (d : driver) (url : string) (r : result unit)
| EQuit (d : driver) (r : result unit).

Definition event_of {X : Type} (o : op X) : X -> event :=
  match o in op X return X -> event with
  | LogMsg lvl msg => fun _ => ELog lvl msg
  | LogSetLevel lvl => fun _ => ESetLevel lvl
  | TimeTime => ETime
  | TimeSleep secs => ESleep secs
  | ExecuteScript d script => EScript d script
  | FindElements d by_ value => EFind d by_ value
  | GetAttribute e name => EAttr e name
  | RequestsGet url timeout => EGet url timeout
  | Makedirs path => EMakedirs path
  | OpenWb path => EOpen path
  | FileWrite path data => EWrite path data
  | FileClose path => EClose path
  | AbsExpandUser path => EAbs path
  | PathExists path => EExists path
  | ChromeNew arguments => EChrome arguments
  | DriverGet d url => ENavigate d url
  | DriverQuit d => EQuit d
  end.

(** A run's record of its operations, in order. *)
Definition trace : Type := list event.

(** An environment: a state and an answer to every operation. *)
Definition handler (W : Type) : Type := forall X : Type, op X -> W -> X * W.

Fixpoint run {W A : Type} (h : handler W) (p : prog A) (w : W) : A * W * trace :=
  match p with
  | Ret a => (a, w, [])
  | Vis o k =>
      let '(x, w1) := h _ o w in
      let '(a, w2, t) := run h (k x) w1 in
      (a, w2, event_of o x :: t)
  end.

Definition run_value {W A : Type} (h : handler W) (p : prog A) (w : W) : A :=
  fst (fst (run h p w)).
Definition run_world {W A : Type} (h : handler W) (p : prog A) (w : W) : W :=
  snd (fst (run h p w)).
Definition run_trace {W A : Type} (h : handler W) (p : prog A) (w : W) : trace :=
  snd (run h p w).

(** ** [scroll_to_bottom] *)

(** Python floats are read as exact rationals; [a > b] on them: *)
Definition Qgtb (a b : Q) : bool := negb (Qle_bool a b).

Definition height_script : string := "return document.body.scrollHeight".
Definition scroll_script : string :=
  "window.scrollTo(0, document.body.scrollHeight);".
Definition css_selector : string := "css selector".
Definition end_marker : string := "[class*='noMoreMessages']".

(** Line 70: [f"Timeout raggiunto dopo {timeout} secondi"] *)
Definition timeout_msg (timeout : Z) : string :=
  "Timeout raggiunto dopo " +:+ pretty timeout +:+ " secondi".

(** The two locals the loop updates. *)
Record scroll_vars : Type := ScrollVars {
  last_height : jsval;
  scroll_attempts : Z
}.

(** How one pass through the loop body ends: it falls off the end or
    reaches [continue], it reaches [break], or a call raised outside a
    [try]. *)
Inductive flow : Type :=
| Continue
| Break
| Propagate (e : exn).

(** Lines 59-83: the body of [while scroll_attempts < max_scrolls]. *)
Definition scroll_iteration (d : driver) (pause : Q) (timeout : Z)
    (start_time : Q) (v : scroll_vars) : prog (scroll_vars * flow) :=
  let attempts := scroll_attempts v + 1 in
  let v := ScrollVars (last_height v) attempts in
  call (LogMsg DEBUG ("Tentativo di scroll #" +:+ pretty attempts));;
  r ← call (ExecuteScript d scroll_script);
  match r with
  | Raise e => mret (v, Propagate e)
  | Ok _ =>
    r ← call (TimeSleep pause);
    match r with
    | Raise e => mret (v, Propagate e)
    | Ok _ =>
      r ← call (ExecuteScript d height_script);
      match r with
      | Raise e => mret (v, Propagate e)
      | Ok new_height =>
        call (LogMsg DEBUG ("Altezza precedente: " +:+ jsval_str (last_height v)
                            +:+ ", nuova altezza: " +:+ jsval_str new_height));;
        if jsval_eqb new_height (last_height v) then
          now ← call TimeTime;
          if Qgtb (now - start_time)%Q (inject_Z timeout) then
            call (LogMsg INFO (timeout_msg timeout));;
            mret (v, Break)
          else
            call (LogMsg DEBUG "Nessun cambiamento nell'altezza, attesa prolungata");;
            r ← call (TimeSleep (pause * 2)%Q);
            match r with
            | Raise e => mret (v, Propagate e)
            | Ok _ => mret (v, Continue)
            end
        else
          let v := ScrollVars new_height attempts in
          r ← call (FindElements d css_selector end_marker);
          match r with
          | Ok (_ :: _) =>
            call (LogMsg INFO "Trovato indicatore di fine messaggi");;
            mret (v, Break)
          | Ok [] => mret (v, Continue)
          | Raise e =>
            call (LogMsg DEBUG ("Errore cercando indicatore fine messaggi: "
                                +:+ exn_msg e));;
            mret (v, Continue)
          end
      end
    end
  end.

(** The [while] loop.  [fuel] bounds the number of times the loop condition
    is evaluated; [None] means the bound was hit before the loop was left. *)
Fixpoint scroll_loop (fuel : nat) (d : driver) (max_scrolls : Z) (pause : Q)
    (timeout : Z) (start_time : Q) (v : scroll_vars)
    : prog (option (scroll_vars * option exn)) :=
  match fuel with
  | O => mret None
  | S fuel' =>
    if scroll_attempts v <? max_scrolls then
      '(v', f) ← scroll_iteration d pause timeout start_time v;
      match f with
      | Continue => scroll_loop fuel' d max_scrolls pause timeout start_time v'
      | Break => mret (Some (v', None))
      | Propagate e => mret (Some (v', Some e))
      end
    else mret (Some (v, None))
  end.

(** [scroll_to_bottom(driver, max_scrolls, pause, timeout)].  [Some (Ok tt)]:
    returned; [Some (Raise e)]: [e] left the function; [None]: out of fuel. *)
Definition scroll_to_bottom (fuel : nat) (d : driver) (max_scrolls : Z)
    (pause : Q) (timeout : Z) : prog (option (result unit)) :=
  call (LogMsg INFO ("Inizio scrolling (max " +:+ pretty max_scrolls
                     +:+ " scrolls, timeout " +:+ pretty timeout +:+ "s)"));;
  r ← call (ExecuteScript d height_script);
  match r with
  | Raise e => mret (Some (Raise e))
  | Ok h0 =>
    start_time ← call TimeTime;
    r ← scroll_loop fuel d max_scrolls pause timeout start_time (ScrollVars h0 0);
    match r with
    | None => mret None
    | Some (_, Some e) => mret (Some (Raise e))
    | Some (v, None) =>
      call (LogMsg INFO ("Scrolling completato dopo "
                         +:+ pretty (scroll_attempts v) +:+ " tentativi"));;
      mret (Some (Ok tt))
    end
  end.

(** ** String and path helpers of the Python library

    [os.path] is [posixpath]: the script is modelled on a POSIX system. *)

(** [s.split(sep)] for a one-character separator. *)
Fixpoint py_split (sep : ascii) (s : string) : list string :=
  match s with
  | EmptyString => [EmptyString]
  | String c r =>
    if Ascii.eqb c sep then EmptyString :: py_split sep r
    else match py_split sep r with
         | [] => [String c EmptyString]
         | p :: ps => String c p :: ps
         end
  end.

(** [s.rfind(c)], scanning from index [i] with [found] the best so far. *)
Fixpoint rfind_from (c : ascii) (s : string) (i found : Z) : Z :=
  match s with
  | EmptyString => found
  | String a r => rfind_from c r (i + 1) (if Ascii.eqb a c then i else found)
  end.

Definition rfind (c : ascii) (s : string) : Z := rfind_from c s 0 (-1).

(** [s[i:]] for [i >= 0] *)
Fixpoint string_drop (n : nat) (s : string) : string :=
  match n, s with
  | O, _ => s
  | S n', String _ r => string_drop n' r
  | S _, EmptyString => EmptyString
  end.

Definition string_last (s : string) : option ascii :=
  match String.length s with
  | O => None
  | S n => String.get n s
  end.

Definition endswith (s : string) (c : ascii) : bool :=
  match string_last s with
  | Some a => Ascii.eqb a c
  | None => false
  end.

Definition startswith (s : string) (c : ascii) : bool :=
  match s with
  | String a _ => Ascii.eqb a c
  | EmptyString => false
  end.

(** [posixpath.basename]: [i = p.rfind('/') + 1; return p[i:]] *)
Definition basename (p : string) : string :=
  let i := rfind "/" p + 1 in
  string_drop (Z.to_nat i) p.

(** [posixpath.join(a, b)] *)
Definition path_join (a b : string) : string :=
  if startswith b "/" then b
  else if (String.eqb a "" || endswith a "/")%bool then a +:+ b
  else a +:+ "/" +:+ b.

(** [Response.raise_for_status] of the requests library: an [HTTPError] for
    a status in 400..599, nothing otherwise. *)
Definition raise_for_status (resp : response) : option exn :=
  let code := status_code resp in
  if (400 <=? code) && (code <? 500) then
    Some (Exn HTTPError (pretty code +:+ " Client Error: " +:+ reason resp
                         +:+ " for url: " +:+ resp_url resp))
  else if (500 <=? code) && (code <? 600) then
    Some (Exn HTTPError (pretty code +:+ " Server Error: " +:+ reason resp
                         +:+ " for url: " +:+ resp_url resp))
  else None.

(** ** [download_images] *)

Definition media_selector : string := "a[href*='cdn.discordapp.com']".

(** The locals of the loop.  [url] is [None] while the name is unbound,
    [Some None] when it holds Python's [None]. *)
Record dl_vars : Type := DlVars {
  url : option (option string);
  seen : gset string;
  downloaded : Z;
  skipped : Z;
  errors : Z
}.

Definition dl_init : dl_vars := DlVars None ∅ 0 0 0.

Definition set_url (u : option string) (v : dl_vars) : dl_vars :=
  DlVars (Some u) (seen v) (downloaded v) (skipped v) (errors v).
Definition seen_add (u : string) (v : dl_vars) : dl_vars :=
  DlVars (url v) ({[ u ]} ∪ seen v) (downloaded v) (skipped v) (errors v).
Definition incr_downloaded (v : dl_vars) : dl_vars :=
  DlVars (url v) (seen v) (downloaded v + 1) (skipped v) (errors v).
Definition incr_skipped (v : dl_vars) : dl_vars :=
  DlVars (url v) (seen v) (downloaded v) (skipped v + 1) (errors v).
Definition incr_errors (v : dl_vars) : dl_vars :=
  DlVars (url v) (seen v) (downloaded v) (skipped v) (errors v + 1).

(** [f"{url}"] *)
Definition opt_str (u : option string) : string :=
  match u with
  | None => "None"
  | Some s => s
  end.

Definition unbound_url : exn :=
  Exn UnboundLocalError
      "cannot access local variable 'url' where it is not associated with a value".

(** Lines 125-130: the two [except] clauses.  Both count the error first and
    then format [url] into the message; reading [url] while it is unbound
    raises inside the clause, and that exception leaves the loop. *)
Definition item_except (v : dl_vars) (e : exn) : prog (dl_vars * option exn) :=
  let v := incr_errors v in
  if is_request_exception e then
    match url v with
    | None => mret (v, Some unbound_url)
    | Some u =>
      call (LogMsg WARNING ("Errore download " +:+ opt_str u +:+ ": " +:+ exn_msg e));;
      mret (v, None)
    end
  else
    match url v with
    | None => mret (v, Some unbound_url)
    | Some u =>
      call (LogMsg ERROR ("Errore imprevisto con " +:+ opt_str u +:+ ": " +:+ exn_msg e));;
      mret (v, None)
    end.

(** Lines 120-121: [with open(path, "wb") as f: f.write(data)].  The file is
    closed on the way out whether or not the write raised. *)
Definition write_file (path : string) (data : list byte) : prog (result unit) :=
  r ← call (OpenWb path);
  match r with
  | Raise e => mret (Raise e)
  | Ok _ =>
    r ← call (FileWrite path data);
    c ← call (FileClose path);
    match c, r with
    | Raise e, _ => mret (Raise e)
    | Ok _, Raise e => mret (Raise e)
    | Ok _, Ok _ => mret (Ok tt)
    end
  end.

(** Lines 105-130: one pass through the body of [for img in imgs].  The
    second component is the exception that leaves the loop, if any. *)
Definition download_item (output_dir : string) (v : dl_vars) (img : element)
    : prog (dl_vars * option exn) :=
  r ← call (GetAttribute img "href");
  match r with
  | Raise e => item_except v e
  | Ok href =>
    let v := set_url href v in
    match href with
    | None => mret (incr_skipped v, None)
    | Some u =>
      if (String.eqb u "" || bool_decide (u ∈ seen v))%bool then
        mret (incr_skipped v, None)
      else
        let v := seen_add u v in
        call (LogMsg DEBUG ("Processo URL: " +:+ u));;
        r ← call (RequestsGet u 10);
        match r with
        | Raise e => item_except v e
        | Ok resp =>
          match raise_for_status resp with
          | Some e => item_except v e
          | None =>
            let name := basename (hd "" (py_split "?" u)) in
            let path := path_join output_dir name in
            r ← write_file path (content resp);
            match r with
            | Raise e => item_except v e
            | Ok _ =>
              let v := incr_downloaded v in
              call (LogMsg DEBUG ("Scaricato: " +:+ name));;
              mret (v, None)
            end
          end
        end
    end
  end.

(** The [for] loop over the link elements. *)
Fixpoint download_loop (output_dir : string) (imgs : list element) (v : dl_vars)
    : prog (dl_vars * option exn) :=
  match imgs with
  | [] => mret (v, None)
  | img :: rest =>
    '(v', x) ← download_item output_dir v img;
    match x with
    | Some e => mret (v', Some e)
    | None => download_loop output_dir rest v'
    end
  end.

Definition results_msg (d s e : Z) : string :=
  "Risultati download: " +:+ pretty d +:+ " scaricati, " +:+ pretty s
  +:+ " saltati, " +:+ pretty e +:+ " errori".

(** [download_images(driver, output_dir)] *)
Definition download_images (d : driver) (output_dir : string) : prog (result unit) :=
  r ← call (Makedirs output_dir);
  match r with
  | Raise e => mret (Raise e)
  | Ok _ =>
    call (LogMsg INFO ("Download immagini nella cartella: " +:+ output_dir));;
    r ← call (FindElements d css_selector media_selector);
    match r with
    | Raise e =>
      call (LogMsg ERROR ("Errore cercando immagini: " +:+ exn_msg e));;
      mret (Ok tt)
    | Ok imgs =>
      call (LogMsg INFO ("Trovate " +:+ pretty (Z.of_nat (length imgs))
                         +:+ " immagini potenziali"));;
      '(v, x) ← download_loop output_dir imgs dl_init;
      match x with
      | Some e => mret (Raise e)
      | None =>
        call (LogMsg INFO (results_msg (downloaded v) (skipped v) (errors v)));;
        mret (Ok tt)
      end
    end
  end.

(** ** [setup_driver] and [main] *)

(** Lines 27-45, the body of the [try] in [setup_driver]. *)
Definition setup_driver_try (profile_path : string) (headless : bool)
    : prog (result driver) :=
  abs_profile_path ← call (AbsExpandUser profile_path);
  call (LogMsg INFO ("Configurando Chrome con profilo: " +:+ abs_profile_path));;
  ex ← call (PathExists abs_profile_path);
  if negb ex then
    mret (Raise (Exn FileNotFoundError
                     ("Cartella del profilo non trovata: " +:+ abs_profile_path)))
  else
    let opts := ["--user-data-dir=" +:+ abs_profile_path;
                 "--no-sandbox"; "--disable-dev-shm-usage"] in
    opts ← (if headless then
              call (LogMsg INFO "Modalità headless attivata");;
              mret (opts ++ ["--headless=new"; "--disable-gpu"])
            else mret opts);
    r ← call (ChromeNew opts);
    match r with
    | Raise e => mret (Raise e)
    | Ok d =>
      call (LogMsg INFO "ChromeDriver inizializzato con successo");;
      mret (Ok d)
    end.

(** [setup_driver(profile_path, headless)]: log and re-raise. *)
Definition setup_driver (profile_path : string) (headless : bool)
    : prog (result driver) :=
  r ← setup_driver_try profile_path headless;
  match r with
  | Ok d => mret (Ok d)
  | Raise e =>
    call (LogMsg ERROR ("Errore durante l'inizializzazione del driver: "
                        +:+ exn_msg e));;
    mret (Raise e)
  end.

(** The parsed command line. *)
Record args : Type := Args {
  profile : string;
  server_id : string;
  channel_id : string;
  output : string;
  scrolls : Z;
  pause : Q;
  headless : bool;
  debug : bool
}.

(** Lines 154-165, the body of the [try] in [main].  The first component is
    the local [driver] ([None] while unbound); the second is [None] when the
    scroll loop ran out of fuel. *)
Definition main_try (fuel : nat) (a : args)
    : prog (option driver * option (result unit)) :=
  let url := "https://discord.com/channels/" +:+ server_id a +:+ "/"
             +:+ channel_id a in
  call (LogMsg INFO ("Accesso a: " +:+ url));;
  r ← setup_driver (profile a) (headless a);
  match r with
  | Raise e => mret (None, Some (Raise e))
  | Ok d =>
    r ← call (DriverGet d url);
    match r with
    | Raise e => mret (Some d, Some (Raise e))
    | Ok _ =>
      call (LogMsg INFO "Pagina caricata, attendo 5 secondi per il login...");;
      r ← call (TimeSleep 5);
      match r with
      | Raise e => mret (Some d, Some (Raise e))
      | Ok _ =>
        r ← scroll_to_bottom fuel d (scrolls a) (pause a) 30;
        match r with
        | None => mret (Some d, None)
        | Some (Raise e) => mret (Some d, Some (Raise e))
        | Some (Ok _) =>
          r ← download_images d (output a);
          match r with
          | Raise e => mret (Some d, Some (Raise e))
          | Ok _ =>
            call (LogMsg INFO "Operazione completata con successo");;
            mret (Some d, Some (Ok tt))
          end
        end
      end
    end
  end.

(** [main()] after argument parsing: [try] / [except Exception] / [finally]. *)
Definition main (fuel : nat) (a : args) : prog (option (result unit)) :=
  (if debug a then
     call (LogSetLevel DEBUG);;
     call (LogMsg DEBUG "Debug logging abilitato")
   else mret tt);;
  '(drv, r) ← main_try fuel a;
  match r with
  | None => mret None
  | Some r =>
    match r with
    | Raise e => call (LogMsg ERROR ("Errore durante l'esecuzione: " +:+ exn_msg e))
    | Ok _ => mret tt
    end;;
    match drv with
    | None => mret (Some (Ok tt))
    | Some d =>
      q ← call (DriverQuit d);
      match q with
      | Raise e => mret (Some (Raise e))
      | Ok _ =>
        call (LogMsg INFO "Browser chiuso");;
        mret (Some (Ok tt))
      end
    end
  end.

(** ** Reading a trace *)

Definition is_scroll_command (e : event) : bool :=
  match e with
  | EScript _ s _ => String.eqb s scroll_script
  | _ => false
  end.

(** Number of scroll commands sent to the browser: one per loop pass. *)
Definition scroll_commands (t : trace) : nat :=
  length (List.filter is_scroll_command t).

(** Answers to the height script, in order. *)
Fixpoint height_readings (t : trace) : list (result jsval) :=
  match t with
  | [] => []
  | EScript _ s r :: t' =>
    if String.eqb s height_script then r :: height_readings t'
    else height_readings t'
  | _ :: t' => height_readings t'
  end.

(** Answers to the end-of-messages query, in order. *)
Fixpoint end_queries (t : trace) : list (result (list element)) :=
  match t with
  | [] => []
  | EFind _ _ s r :: t' =>
    if String.eqb s end_marker then r :: end_queries t' else end_queries t'
  | _ :: t' => end_queries t'
  end.

(** Readings of [time.time()], in order. *)
Fixpoint clock_readings (t : trace) : list Q :=
  match t with
  | [] => []
  | ETime c :: t' => c :: clock_readings t'
  | _ :: t' => clock_readings t'
  end.


(** The end-of-messages query came back with at least one element. *)
Definition marker_found (e : event) : bool :=
  match e with
  | EFind _ _ _ (Ok (_ :: _)) => true
  | _ => false
  end.


(** No scroll command is sent after an event that satisfies [p]. *)
Definition no_scroll_after (p : event -> bool) (t : trace) : Prop :=
  forall t1 e t2, t = t1 ++ e :: t2 -> p e = true -> scroll_commands t2 = 0%nat.

(** URLs handed to [requests.get], in order. *)
Fixpoint fetched_urls (t : trace) : list string :=
  match t with
  | [] => []
  | EGet u _ _ :: t' => u :: fetched_urls t'
  | _ :: t' => fetched_urls t'
  end.

(** Values of the [href] attribute read without error, in order. *)
Fixpoint hrefs_read (t : trace) : list (option string) :=
  match t with
  | [] => []
  | EAttr _ _ (Ok a) :: t' => a :: hrefs_read t'
  | _ :: t' => hrefs_read t'
  end.

(** The exception a fetch ends in, if any: the one [requests.get] raised or
    the one [raise_for_status] raises on its response. *)
Definition fetch_error (r : result response) : option exn :=
  match r with
  | Raise e => Some e
  | Ok resp => raise_for_status resp
  end.

(** Number of fetches that ended in an exception. *)
Fixpoint fetch_failures (t : trace) : nat :=
  match t with
  | [] => O
  | EGet _ _ r :: t' =>
    match fetch_error r with
    | Some _ => S (fetch_failures t')
    | None => fetch_failures t'
    end
  | _ :: t' => fetch_failures t'
  end.

(** Number of per-link exceptions that are not fetch failures: reading the
    attribute, or opening, writing or closing the file. *)
Fixpoint other_faults (t : trace) : nat :=
  match t with
  | [] => O
  | EAttr _ _ (Raise _) :: t' => S (other_faults t')
  | EOpen _ (Raise _) :: t' => S (other_faults t')
  | EWrite _ _ (Raise _) :: t' => S (other_faults t')
  | EClose _ (Raise _) :: t' => S (other_faults t')
  | _ :: t' => other_faults t'
  end.

(** Paths the run opened for writing, whether or not opening succeeded. *)
Fixpoint opened_paths (t : trace) : list string :=
  match t with
  | [] => []
  | EOpen p _ :: t' => p :: opened_paths t'
  | _ :: t' => opened_paths t'
  end.

(** What the run's successful file operations do to a file system:
    [open(path, "wb")] creates or truncates, [write] stores the bytes. *)
Fixpoint fs_apply (t : trace) (fs : gmap string (list byte)) : gmap string (list byte) :=
  match t with
  | [] => fs
  | EOpen p (Ok _) :: t' => fs_apply t' (<[p := []]> fs)
  | EWrite p data (Ok _) :: t' => fs_apply t' (<[p := data]> fs)
  | _ :: t' => fs_apply t' fs
  end.

(** Among [hrefs], the number that are absent, empty, or equal to one read
    before them ([earlier] holds the non-empty URLs read so far). *)
Fixpoint duplicates_or_absent (earlier : list string) (hrefs : list (option string))
    : nat :=
  match hrefs with
  | [] => O
  | None :: r => S (duplicates_or_absent earlier r)
  | Some u :: r =>
    if (String.eqb u "" || existsb (String.eqb u) earlier)%bool
    then S (duplicates_or_absent earlier r)
    else duplicates_or_absent (u :: earlier) r
  end.

(** Whether the code skips a link with this [href] (line 107). *)
Definition skips (s : gset string) (a : option string) : bool :=
  match a with
  | None => true
  | Some u => (String.eqb u "" || bool_decide (u ∈ s))%bool
  end.

(** [earlier] lists what is in [seen]. *)
Definition lists_seen (earlier : list string) (v : dl_vars) : Prop :=
  forall u, u ∈ seen v <-> In u earlier.

(** The links the run found: the answer to its first element query. *)
Fixpoint links_found (t : trace) : option (list element) :=
  match t with
  | [] => None
  | EFind _ _ _ (Ok l) :: _ => Some l
  | EFind _ _ _ (Raise _) :: _ => None
  | _ :: t' => links_found t'
  end.

(** Whether the character occurs in the string. *)
Fixpoint has_char (c : ascii) (s : string) : bool :=
  match s with
  | EmptyString => false
  | String a r => (Ascii.eqb a c || has_char c r)%bool
  end.

(** Line 117: the file name derived from a URL. *)
Definition file_name_of (u : string) : string := basename (hd "" (py_split "?" u)).

(** The answer to the first [os.path.exists] of a run. *)
Fixpoint first_exists (t : trace) : option (string * bool) :=
  match t with
  | [] => None
  | EExists p b :: _ => Some (p, b)
  | _ :: t' => first_exists t'
  end.

(** Calls that need a browser session: creating it, navigating, running
    scripts, querying elements, quitting. *)
Definition is_browser_event (e : event) : bool :=
  match e with
  | EChrome _ _ | ENavigate _ _ _ | EScript _ _ _ | EFind _ _ _ _
  | EAttr _ _ _ | EQuit _ _ => true
  | _ => false
  end.

Definition browser_events (t : trace) : list event := List.filter is_browser_event t.

(** ** A scripted environment

    A concrete environment to run the script against: a clock that only
    sleeping advances, a browser that answers the height script and the
    end-marker query from two scripts (the last answer of a script repeats),
    a table of links, an HTTP table, and a file system. *)

Record world : Type := World {
  now : Q;
  heights : list (result jsval);
  finds : list (result (list element));
  links : result (list element);
  href_of : element -> result (option string);
  http : string -> result response;
  open_error : string -> option exn;
  path_exists : string -> bool;
  files : gmap string (list byte)
}.

Definition set_now (t : Q) (w : world) : world :=
  World t (heights w) (finds w) (links w) (href_of w) (http w) (open_error w)
        (path_exists w) (files w).
Definition set_heights (l : list (result jsval)) (w : world) : world :=
  World (now w) l (finds w) (links w) (href_of w) (http w) (open_error w)
        (path_exists w) (files w).
Definition set_finds (l : list (result (list element))) (w : world) : world :=
  World (now w) (heights w) l (links w) (href_of w) (http w) (open_error w)
        (path_exists w) (files w).
Definition set_files (m : gmap string (list byte)) (w : world) : world :=
  World (now w) (heights w) (finds w) (links w) (href_of w) (http w) (open_error w)
        (path_exists w) m.

Definition next {A : Type} (dflt : A) (l : list A) : A * list A :=
  match l with
  | [] => (dflt, [])
  | [x] => (x, [x])
  | x :: r => (x, r)
  end.

Definition scripted : handler world :=
  fun X o =>
    match o in op X return world -> X * world with
    | LogMsg _ _ => fun w => (tt, w)
    | LogSetLevel _ => fun w => (tt, w)
    | TimeTime => fun w => (now w, w)
    | TimeSleep secs => fun w => (Ok tt, set_now (now w + secs)%Q w)
    | ExecuteScript _ script => fun w =>
        if String.eqb script height_script then
          let '(x, l) := next (Ok (JsNum 0)) (heights w) in (x, set_heights l w)
        else (Ok JsNull, w)
    | FindElements _ _ value => fun w =>
        if String.eqb value end_marker then
          let '(x, l) := next (Ok []) (finds w) in (x, set_finds l w)
        else (links w, w)
    | GetAttribute e _ => fun w => (href_of w e, w)
    | RequestsGet u _ => fun w => (http w u, w)
    | Makedirs _ => fun w => (Ok tt, w)
    | OpenWb path => fun w =>
        match open_error w path with
        | Some e => (Raise e, w)
        | None => (Ok tt, set_files (<[path := []]> (files w)) w)
        end
    | FileWrite path data => fun w => (Ok tt, set_files (<[path := data]> (files w)) w)
    | FileClose _ => fun w => (Ok tt, w)
    | AbsExpandUser path => fun w => (path, w)
    | PathExists path => fun w => (path_exists w path, w)
    | ChromeNew _ => fun w => (Ok (Driver 0), w)
    | DriverGet _ _ => fun w => (Ok tt, w)
    | DriverQuit _ => fun w => (Ok tt, w)
    end.

(** A page of constant height 100 and no links, every path present. *)
Definition still_page : world :=
  World 0 [Ok (JsNum 100)] [Ok []] (Ok []) (fun _ => Ok None)
        (fun u => Ok (Response 200 "OK" u [])) (fun _ => None) (fun _ => true) ∅.

(** A page of constant height on which the end-of-messages marker is
    present from the start. *)
Definition marked_page : world :=
  World 0 [Ok (JsNum 100)] [Ok [WebElement 7]] (Ok []) (fun _ => Ok None)
        (fun u => Ok (Response 200 "OK" u [])) (fun _ => None) (fun _ => true) ∅.

(** A page that grows twice and then stays at 300. *)
Definition growing_page : world :=
  World 0 [Ok (JsNum 100); Ok (JsNum 200); Ok (JsNum 300); Ok (JsNum 300)]
        [Ok []] (Ok []) (fun _ => Ok None)
        (fun u => Ok (Response 200 "OK" u [])) (fun _ => None) (fun _ => true) ∅.

Definition detached : exn := Exn WebDriverException "stale element reference".

(** A page whose height can be measured once; the next measurement fails. *)
Definition broken_page : world :=
  World 0 [Ok (JsNum 100); Raise detached] [Ok []] (Ok []) (fun _ => Ok None)
        (fun u => Ok (Response 200 "OK" u [])) (fun _ => None) (fun _ => true) ∅.

(** A page that grows on the first pass, where the end-of-messages query
    then fails. *)
Definition flaky_page : world :=
  World 0 [Ok (JsNum 100); Ok (JsNum 200)] [Raise detached; Ok []] (Ok [])
        (fun _ => Ok None)
        (fun u => Ok (Response 200 "OK" u [])) (fun _ => None) (fun _ => true) ∅.

Definition abc_url : string :=
  "https://cdn.discordapp.com/attachments/1/2/abc.png?ex=123".
Definition def_url : string :=
  "https://cdn.discordapp.com/attachments/1/3/def.png?ex=9".
Definition abc_bytes : list byte := [x89; x50; x4e; x47].

(** A channel with four links: [abc.png], the same link again, [def.png]
    (which the CDN answers with 404), and an anchor without [href].  The
    output directory already holds an older [abc.png]. *)
Definition gallery : world :=
  World 0 [Ok (JsNum 100)] [Ok []]
        (Ok [WebElement 1; WebElement 2; WebElement 3; WebElement 4])
        (fun e => match e with
                  | WebElement 1 | WebElement 2 => Ok (Some abc_url)
                  | WebElement 3 => Ok (Some def_url)
                  | _ => Ok None
                  end)
        (fun u => if String.eqb u abc_url
                  then Ok (Response 200 "OK" u abc_bytes)
                  else Ok (Response 404 "Not Found" u []))
        (fun _ => None) (fun _ => true)
        {[ "images/abc.png" := [x00] ]}.

(** The same channel when the CDN answers every request with
    [304 Not Modified]. *)
Definition not_modified : world :=
  World 0 [Ok (JsNum 100)] [Ok []] (Ok [WebElement 1])
        (fun _ => Ok (Some abc_url))
        (fun u => Ok (Response 304 "Not Modified" u []))
        (fun _ => None) (fun _ => true) ∅.

(** A channel with one good link whose file cannot be opened for writing. *)
Definition read_only_disk : world :=
  World 0 [Ok (JsNum 100)] [Ok []] (Ok [WebElement 1])
        (fun _ => Ok (Some abc_url))
        (fun u => Ok (Response 200 "OK" u abc_bytes))
        (fun _ => Some (Exn OSError "[Errno 30] Read-only file system"))
        (fun _ => true) ∅.

(** A channel with two links; the first element has gone stale by the time
    its attribute is read. *)
Definition stale_first_link : world :=
  World 0 [Ok (JsNum 100)] [Ok []] (Ok [WebElement 1; WebElement 2])
        (fun e => match e with
                  | WebElement 1 => Raise detached
                  | _ => Ok (Some abc_url)
                  end)
        (fun u => Ok (Response 200 "OK" u abc_bytes))
        (fun _ => None) (fun _ => true) ∅.

(** A machine on which the profile directory does not exist. *)
Definition no_profile : world :=
  World 0 [Ok (JsNum 100)] [Ok []] (Ok []) (fun _ => Ok None)
        (fun u => Ok (Response 200 "OK" u [])) (fun _ => None) (fun _ => false) ∅.

Definition sample_args : args :=
  Args "/home/user/chrome-profile" "111" "222" "images" 3 1 false false.

(** ** The stall timeout as the specification words it

    The specification measures the stall timeout from the first unchanged
    height measurement.  In a run's clock readings the first is
    [start_time], the second is the check made at the first unchanged
    measurement, and the last is the check after which the driver stopped
    or gave up. *)



Definition abc2_url : string := "https://cdn.discordapp.com/attachments/9/9/abc.png".
Definition abc2_bytes : list byte := [x47; x49; x46].

(** A channel with two links to different attachments that are both called
    [abc.png]. *)
Definition same_name : world :=
  World 0 [Ok (JsNum 100)] [Ok []] (Ok [WebElement 1; WebElement 2])
        (fun e => match e with
                  | WebElement 1 => Ok (Some abc_url)
                  | _ => Ok (Some abc2_url)
                  end)
        (fun u => if String.eqb u abc_url
                  then Ok (Response 200 "OK" u abc_bytes)
                  else Ok (Response 200 "OK" u abc2_bytes))
        (fun _ => None) (fun _ => true) ∅.

(** A page on which the query for the links fails. *)
Definition unreachable_page : world :=
  World 0 [Ok (JsNum 100)] [Ok []] (Raise detached) (fun _ => Ok None)
        (fun u => Ok (Response 200 "OK" u [])) (fun _ => None) (fun _ => true) ∅.

Definition permission_denied : exn := Exn OSError "[Errno 13] Permission denied".

(** The scripted environment on a machine where no directory can be
    created. *)
Definition no_mkdir : handler world :=
  fun X o =>
    match o in op X' return (world -> X' * world) -> world -> X' * world with
    | Makedirs _ => fun _ w => (Raise permission_denied, w)
    | _ => fun dflt => dflt
    end (scripted X o).

(** ** More of what a trace shows *)

(** Fetches that went through, in order: the URL and the body of every
    response on which [raise_for_status] did not raise. *)
Definition fetched_ok (t : trace) : list (string * list byte) :=
  flat_map (fun e => match e with
                     | EGet u _ (Ok resp) =>
                       match raise_for_status resp with
                       | None => [(u, content resp)]
                       | Some _ => []
                       end
                     | _ => []
                     end) t.

(** Paths whose [open] succeeded, and paths closed, in order. *)
Definition opened_ok (t : trace) : list string :=
  flat_map (fun e => match e with EOpen p (Ok _) => [p] | _ => [] end) t.

Definition closed_paths (t : trace) : list string :=
  flat_map (fun e => match e with EClose p _ => [p] | _ => [] end) t.

(** What was handed to [f.write], with the path of the file. *)
Definition writes (t : trace) : list (string * list byte) :=
  flat_map (fun e => match e with EWrite p data _ => [(p, data)] | _ => [] end) t.

(** Number of [open] and [write] calls that raised. *)
Definition write_faults (t : trace) : nat :=
  length (flat_map (fun e => match e with
                             | EOpen _ (Raise _) | EWrite _ _ (Raise _) => [e]
                             | _ => []
                             end) t).

(** Line 118: where the body of a URL goes. *)
Definition path_of (output_dir u : string) : string :=
  path_join output_dir (file_name_of u).

(** What [p] holds after the bodies [l] have been stored in order, each at
    the path of its URL, when it held [init] before. *)
Definition final_body (output_dir p : string) (l : list (string * list byte))
    (init : option (list byte)) : option (list byte) :=
  fold_left (fun acc ub => if String.eqb (path_of output_dir ub.1) p
                           then Some ub.2 else acc) l init.

(** The URLs the loop has to fetch for the [href]s it reads: the non-empty
    ones, each at its first occurrence ([earlier] holds those met so far). *)
Fixpoint to_fetch (earlier : list string) (hrefs : list (option string))
    : list string :=
  match hrefs with
  | [] => []
  | None :: r => to_fetch earlier r
  | Some u :: r =>
    if (String.eqb u "" || existsb (String.eqb u) earlier)%bool
    then to_fetch earlier r
    else u :: to_fetch (u :: earlier) r
  end.

(** Answers to the attribute reads, in order. *)
Definition attr_answers (t : trace) : list (result (option string)) :=
  flat_map (fun e => match e with EAttr _ _ r => [r] | _ => [] end) t.

(** What a pass through the download loop may do to the outside world. *)
Definition item_event (e : event) : Prop :=
  match e with
  | ELog _ _ | EOpen _ _ | EWrite _ _ _ | EClose _ _ => True
  | EAttr _ name _ => name = "href"
  | EGet _ to _ => to = 10
  | _ => False
  end.

(** What [download_images d output_dir] may do to the outside world. *)
Definition download_event (d : driver) (output_dir : string) (e : event) : Prop :=
  match e with
  | ELog _ _ | EOpen _ _ | EWrite _ _ _ | EClose _ _ => True
  | EMakedirs p _ => p = output_dir
  | EFind d' by_ value _ => d' = d /\ by_ = css_selector /\ value = media_selector
  | EAttr _ name _ => name = "href"
  | EGet _ to _ => to = 10
  | _ => False
  end.

(** What [scroll_to_bottom d _ pause _] may do to the outside world. *)
Definition scroll_event (d : driver) (pause : Q) (e : event) : Prop :=
  match e with
  | ELog _ _ | ETime _ => True
  | ESleep secs _ => secs = pause \/ secs = (pause * 2)%Q
  | EScript d' s _ => d' = d /\ (s = scroll_script \/ s = height_script)
  | EFind d' by_ value _ => d' = d /\ by_ = css_selector /\ value = end_marker
  | _ => False
  end.

(** Log entries of a level, in order. *)
Definition logged (lvl : level) (t : trace) : list string :=
  flat_map (fun e => match e with
                     | ELog l m =>
                       match lvl, l with
                       | DEBUG, DEBUG | INFO, INFO | WARNING, WARNING
                       | ERROR, ERROR => [m]
                       | _, _ => []
                       end
                     | _ => []
                     end) t.

(** * Properties *)

(** ** Running programs: general facts *)

Section Run.
Context {W : Type} (h : handler W).

Lemma run_bind {A B : Type} (m : prog A) (f : A -> prog B) (w : W) :
  run h (m ≫= f) w =
  let '(a, w1, t1) := run h m w in
  let '(b, w2, t2) := run h (f a) w1 in
  (b, w2, t1 ++ t2).
Proof.
  unfold mbind, prog_bind.
  revert w. induction m as [a | X o k IH]; intros w; simpl.
  - destruct (run h (f a) w) as [[b w2] t2]. reflexivity.
  - destruct (h X o w) as [x w1]. rewrite (IH x w1).
    destruct (run h (k x) w1) as [[a w2] t1].
    destruct (run h (f a) w2) as [[b w3] t2]. reflexivity.
Qed.

Lemma run_bind_raw {A B : Type} (m : prog A) (f : A -> prog B) (w : W) :
  run h (bind m f) w =
  let '(a, w1, t1) := run h m w in
  let '(b, w2, t2) := run h (f a) w1 in
  (b, w2, t1 ++ t2).
Proof. exact (run_bind m f w). Qed.

Lemma run_ret {A : Type} (a : A) (w : W) : run h (mret a) w = (a, w, []).
Proof. reflexivity. Qed.

Lemma scroll_commands_app (t1 t2 : trace) :
  scroll_commands (t1 ++ t2) = (scroll_commands t1 + scroll_commands t2)%nat.
Proof. unfold scroll_commands. rewrite List.filter_app, length_app. reflexivity. Qed.

Lemma scroll_commands_nil : scroll_commands [] = 0%nat.
Proof. reflexivity. Qed.

Lemma scroll_commands_cons (e : event) (t : trace) :
  scroll_commands (e :: t) =
  ((if is_scroll_command e then 1 else 0) + scroll_commands t)%nat.
Proof. unfold scroll_commands. simpl. destruct (is_scroll_command e); reflexivity. Qed.
End Run.

Create Rewrite HintDb traces.
#[export] Hint Rewrite @scroll_commands_cons @scroll_commands_app
  @scroll_commands_nil : traces.

Ltac count := autorewrite with traces; simpl.

(** Symbolic execution under [run]: answer the next operation with a fresh
    value, and split on answers and tests the program branches on. *)
Ltac ask h :=
  match goal with
  | |- context [h ?X ?o ?w] =>
    let E := fresh "E" in destruct (h X o w) as [? ?] eqn:E; simpl
  end.

Ltac exec h :=
  simpl;
  repeat (match goal with
          | |- context [h ?X ?o ?w] =>
            let E := fresh "E" in destruct (h X o w) as [? ?] eqn:E
          | |- context [match ?x with Ok _ => _ | Raise _ => _ end] =>
            is_var x; destruct x
          | |- context [match ?x with [] => _ | _ :: _ => _ end] =>
            is_var x; destruct x
          | |- context [match ?x with Some _ => _ | None => _ end] =>
            let O := fresh "O" in destruct x eqn:O
          | |- context [if ?b then _ else _] =>
            lazymatch type of b with
            | bool => let B := fresh "B" in destruct b eqn:B
            end
          end; simpl).

(** ** Events after which the driver is quiet *)

Section Quiet.
Variable p : event -> bool.

Lemma no_scroll_after_nil : no_scroll_after p [].
Proof. intros t1 e t2 H. destruct t1; discriminate H. Qed.

Lemma no_scroll_after_cons (e : event) (t : trace) :
  (p e = true -> scroll_commands t = 0%nat) ->
  no_scroll_after p t ->
  no_scroll_after p (e :: t).
Proof.
  intros He Ht [|e1 t1] e' t2 Heq Hp; simpl in Heq.
  - injection Heq as <- <-. auto.
  - injection Heq as <- ->. eapply Ht; eauto.
Qed.

Lemma no_scroll_after_app (a b : trace) :
  no_scroll_after p a ->
  no_scroll_after p b ->
  (existsb p a = true -> scroll_commands b = 0%nat) ->
  no_scroll_after p (a ++ b).
Proof.
  revert b. induction a as [|e a IH]; intros b Ha Hb Hab; simpl; [exact Hb|].
  apply no_scroll_after_cons.
  - intros Hp. rewrite scroll_commands_app.
    rewrite (Ha [] e a eq_refl Hp). simpl. apply Hab. simpl. rewrite Hp. reflexivity.
  - apply IH; [|exact Hb|].
    + intros t1 e' t2 -> Hp. apply (Ha (e :: t1) e' t2 eq_refl Hp).
    + intros Hex. apply Hab. simpl. rewrite Hex. apply orb_true_r.
Qed.
End Quiet.

(** Discharge [no_scroll_after] on an explicit list of events. *)
Ltac quiet :=
  repeat (apply no_scroll_after_cons;
          [simpl; first [discriminate | intros _; reflexivity | congruence] |]);
  try apply no_scroll_after_nil.

(** ** The scroll loop is bounded *)

Section ScrollBound.
Context {W : Type} (h : handler W).
Variables (d : driver) (max_scrolls : Z) (pause : Q) (timeout : Z) (start_time : Q).

Lemma scroll_loop_S (fuel : nat) (v : scroll_vars) :
  scroll_loop (S fuel) d max_scrolls pause timeout start_time v =
  if scroll_attempts v <? max_scrolls then
    scroll_iteration d pause timeout start_time v ≫= (fun '(v', f) =>
      match f with
      | Continue => scroll_loop fuel d max_scrolls pause timeout start_time v'
      | Break => mret (Some (v', None))
      | Propagate e => mret (Some (v', Some e))
      end)
  else mret (Some (v, None)).
Proof. reflexivity. Qed.

(** Every pass sends exactly one scroll command and counts it. *)
Lemma scroll_iteration_counts (v : scroll_vars) (w : W) :
  scroll_commands (run_trace h (scroll_iteration d pause timeout start_time v) w) = 1%nat
  /\ scroll_attempts (run_value h (scroll_iteration d pause timeout start_time v) w).1
     = scroll_attempts v + 1.
Proof.
  unfold run_trace, run_value, scroll_iteration. exec h; auto.
Qed.

(** The loop never sends more scroll commands than [max_scrolls] leaves
    room for, whatever the fuel, and it leaves [scroll_attempts] at the
    number of commands sent. *)
Lemma scroll_loop_bound (fuel : nat) (v : scroll_vars) (w : W) :
  let r := run h (scroll_loop fuel d max_scrolls pause timeout start_time v) w in
  (scroll_commands r.2 <= Z.to_nat (max_scrolls - scroll_attempts v))%nat
  /\ (forall v' x, r.1.1 = Some (v', x) ->
        scroll_attempts v' = scroll_attempts v + Z.of_nat (scroll_commands r.2)).
Proof.
  revert v w. induction fuel as [|fuel IH]; intros v w.
  - simpl. rewrite scroll_commands_nil. split; [lia | discriminate].
  - rewrite scroll_loop_S.
    destruct (Z.ltb_spec (scroll_attempts v) max_scrolls) as [Hlt|Hge].
    2:{ simpl. rewrite scroll_commands_nil. split; [lia|].
        intros v' x [= <- <-]. lia. }
    rewrite run_bind.
    pose proof (scroll_iteration_counts v w) as [Hc Ha].
    unfold run_trace, run_value in Hc, Ha.
    destruct (run h (scroll_iteration d pause timeout start_time v) w)
      as [[[v1 f] w1] t1]. simpl in Hc, Ha.
    destruct f.
    + specialize (IH v1 w1). simpl in IH.
      destruct (run h (scroll_loop fuel d max_scrolls pause timeout start_time v1) w1)
        as [[r w2] t2]. simpl in *.
      rewrite scroll_commands_app, Hc. destruct IH as [IH1 IH2]. split; [lia|].
      intros v' x Hr. rewrite (IH2 v' x Hr). lia.
    + simpl. rewrite scroll_commands_app, Hc, scroll_commands_nil. split; [lia|].
      intros v' x [= <- <-]. lia.
    + simpl. rewrite scroll_commands_app, Hc, scroll_commands_nil. split; [lia|].
      intros v' x [= <- <-]. lia.
Qed.

(** With more fuel than [max_scrolls] leaves passes, the loop is left. *)
Lemma scroll_loop_returns (fuel : nat) (v : scroll_vars) (w : W) :
  (Z.to_nat (max_scrolls - scroll_attempts v) < fuel)%nat ->
  run_value h (scroll_loop fuel d max_scrolls pause timeout start_time v) w <> None.
Proof.
  unfold run_value.
  revert v w. induction fuel as [|fuel IH]; intros v w Hf; [lia|].
  rewrite scroll_loop_S.
  destruct (Z.ltb_spec (scroll_attempts v) max_scrolls) as [Hlt|Hge];
    [|discriminate].
  rewrite run_bind.
  pose proof (scroll_iteration_counts v w) as [_ Ha]. unfold run_value in Ha.
  destruct (run h (scroll_iteration d pause timeout start_time v) w)
    as [[[v1 f] w1] t1]. simpl in Ha.
  destruct f; try discriminate.
  specialize (IH v1 w1).
  destruct (run h (scroll_loop fuel d max_scrolls pause timeout start_time v1) w1)
    as [[r w2] t2]. simpl in *. apply IH. lia.
Qed.
End ScrollBound.

(** C3. Whatever the page answers, [scroll_to_bottom] run with more fuel than
    [max_scrolls] comes back (it returns or lets an exception out; it does
    not run out of fuel), and it has sent at most [max_scrolls] scroll
    commands, one per pass through the loop. *)
Theorem scroll_to_bottom_bounded {W : Type} (h : handler W) (w : W)
    (fuel : nat) (d : driver) (max_scrolls : Z) (pause : Q) (timeout : Z) :
  (Z.to_nat max_scrolls < fuel)%nat ->
  run_value h (scroll_to_bottom fuel d max_scrolls pause timeout) w <> None
  /\ (scroll_commands (run_trace h (scroll_to_bottom fuel d max_scrolls pause timeout) w)
      <= Z.to_nat max_scrolls)%nat.
Proof.
  intros Hf. unfold run_value, run_trace, scroll_to_bottom. simpl.
  destruct (h _ (LogMsg INFO _) w) as [[] w0]. simpl.
  destruct (h _ (ExecuteScript d height_script) w0) as [[h0|e] w1]; simpl.
  2:{ split; [discriminate|]. count. lia. }
  destruct (h _ TimeTime w1) as [start w2]. simpl.
  rewrite run_bind.
  pose proof (scroll_loop_bound h d max_scrolls pause timeout start fuel
                (ScrollVars h0 0) w2) as [Hb _].
  pose proof (scroll_loop_returns h d max_scrolls pause timeout start fuel
                (ScrollVars h0 0) w2) as Hr.
  unfold run_value in Hr. simpl in Hb, Hr. rewrite Z.sub_0_r in Hb, Hr.
  specialize (Hr Hf).
  destruct (run h (scroll_loop fuel d max_scrolls pause timeout start (ScrollVars h0 0)) w2)
    as [[r w3] t]. simpl in Hb, Hr.
  destruct r as [[v [e|]]|]; simpl; [| |congruence].
  - split; [discriminate|].
    count. lia.
  - destruct (h _ (LogMsg INFO _) w3) as [[] w4]. simpl.
    split; [discriminate|].
    count. lia.
Qed.

Lemma scroll_to_bottom_bounded_witness :
  (Z.to_nat 3 < 4)%nat
  /\ run_value scripted (scroll_to_bottom 4 (Driver 0) 3 1 30) still_page <> None
  /\ (scroll_commands (run_trace scripted (scroll_to_bottom 4 (Driver 0) 3 1 30) still_page)
      <= Z.to_nat 3)%nat.
Proof.
  split; [simpl; lia | apply scroll_to_bottom_bounded; simpl; lia].
Defined.


(** ** How a pass through the scroll loop ends *)

Section ScrollFlow.
Context {W : Type} (h : handler W).
Variables (d : driver) (pause : Q) (timeout : Z) (start_time : Q).

(** Finding the marker ends the pass with [break], and nothing is sent to
    the browser after the query. *)
Lemma scroll_iteration_marker (v : scroll_vars) (w : W) :
  let r := run h (scroll_iteration d pause timeout start_time v) w in
  no_scroll_after marker_found r.2
  /\ (existsb marker_found r.2 = true -> r.1.1.2 = Break).
Proof.
  unfold scroll_iteration. exec h; (split; [quiet | simpl; congruence]).
Qed.


(** An error from the height script is not caught: it ends the pass and
    leaves the loop. *)
Lemma scroll_iteration_height_raise (v : scroll_vars) (w : W) (e : exn) :
  let r := run h (scroll_iteration d pause timeout start_time v) w in
  In (Raise e) (height_readings r.2) -> r.1.1.2 = Propagate e.
Proof.
  unfold scroll_iteration. exec h; intros Hin;
    repeat (destruct Hin as [Hin|Hin]; [try discriminate Hin|]);
    try contradiction; congruence.
Qed.

(** An error from the end-of-messages query is caught: it is logged at
    debug level and the pass ends normally, with the new height recorded. *)
Lemma scroll_iteration_query_raise (v : scroll_vars) (w : W) (e : exn) :
  let r := run h (scroll_iteration d pause timeout start_time v) w in
  In (Raise e) (end_queries r.2) ->
  r.1.1.2 = Continue
  /\ List.last r.2 (ELog INFO "") =
     ELog DEBUG ("Errore cercando indicatore fine messaggi: " +:+ exn_msg e)
  /\ exists nh, height_readings r.2 = [Ok nh] /\ last_height r.1.1.1 = nh.
Proof.
  unfold scroll_iteration. exec h; intros Hin;
    repeat (destruct Hin as [Hin|Hin]; [try discriminate Hin|]);
    try contradiction.
  injection Hin as ->. repeat split; eauto.
Qed.

(** When the height has not changed, the end-of-messages query is not
    made; the clock is read once and decides between [break] and
    waiting [pause * 2]. *)
Lemma scroll_iteration_unchanged (v : scroll_vars) (w : W) (nh : jsval) :
  let r := run h (scroll_iteration d pause timeout start_time v) w in
  height_readings r.2 = [Ok nh] ->
  jsval_eqb nh (last_height v) = true ->
  end_queries r.2 = []
  /\ exists c, clock_readings r.2 = [c]
       /\ (Qgtb (c - start_time)%Q (inject_Z timeout) = true -> r.1.1.2 = Break)
       /\ (Qgtb (c - start_time)%Q (inject_Z timeout) = false ->
           r.1.1.2 <> Break /\ exists x, In (ESleep (pause * 2)%Q x) r.2).
Proof.
  unfold scroll_iteration. exec h; intros Hh Heq; try discriminate Hh;
    injection Hh as ->; try congruence;
    (split; [reflexivity|]); eexists; (split; [reflexivity|]);
    (split; [intros Ht; first [reflexivity | congruence]|]);
    intros Hf; first [congruence | split; [discriminate|]];
    eexists; simpl; eauto 12.
Qed.

(** When the height has changed, the clock is not read and the query is
    made once. *)
Lemma scroll_iteration_changed (v : scroll_vars) (w : W) (nh : jsval) :
  let r := run h (scroll_iteration d pause timeout start_time v) w in
  height_readings r.2 = [Ok nh] ->
  jsval_eqb nh (last_height v) = false ->
  clock_readings r.2 = [] /\ length (end_queries r.2) = 1%nat.
Proof.
  unfold scroll_iteration. exec h; intros Hh Heq; try discriminate Hh;
    injection Hh as ->; try congruence; split; reflexivity.
Qed.
End ScrollFlow.

(** ** From one pass to the whole loop *)

Section ScrollLoop.
Context {W : Type} (h : handler W).
Variables (d : driver) (max_scrolls : Z) (pause : Q) (timeout : Z) (start_time : Q).

(** A pass that ends normally is followed by the rest of the loop, run from
    the variables and the world the pass left. *)
Lemma scroll_loop_step (fuel : nat) (v : scroll_vars) (w : W) :
  let i := run h (scroll_iteration d pause timeout start_time v) w in
  scroll_attempts v < max_scrolls ->
  i.1.1.2 = Continue ->
  let l := run h (scroll_loop fuel d max_scrolls pause timeout start_time i.1.1.1) i.1.2 in
  run h (scroll_loop (S fuel) d max_scrolls pause timeout start_time v) w
  = (l.1.1, l.1.2, i.2 ++ l.2).
Proof.
  cbv zeta. intros Hlt Hc. apply Z.ltb_lt in Hlt.
  rewrite scroll_loop_S, Hlt, run_bind.
  destruct (run h (scroll_iteration d pause timeout start_time v) w)
    as [[[v1 f] w1] t1]. simpl in Hc. subst f. simpl.
  destruct (run h (scroll_loop fuel d max_scrolls pause timeout start_time v1) w1)
    as [[r w2] t2]. reflexivity.
Qed.

(** If an event of kind [p] makes a pass end with [break] and is followed
    by no scroll command within the pass, it is followed by none in the
    whole loop. *)
Lemma scroll_loop_quiet (p : event -> bool) :
  (forall v w,
      let r := run h (scroll_iteration d pause timeout start_time v) w in
      no_scroll_after p r.2 /\ (existsb p r.2 = true -> r.1.1.2 = Break)) ->
  forall fuel v w,
    no_scroll_after p
      (run_trace h (scroll_loop fuel d max_scrolls pause timeout start_time v) w).
Proof.
  intros Hiter. unfold run_trace.
  induction fuel as [|fuel IH]; intros v w.
  - simpl. apply no_scroll_after_nil.
  - rewrite scroll_loop_S. destruct (scroll_attempts v <? max_scrolls).
    2:{ simpl. apply no_scroll_after_nil. }
    rewrite run_bind. specialize (Hiter v w). cbv zeta in Hiter.
    destruct (run h (scroll_iteration d pause timeout start_time v) w)
      as [[[v1 f] w1] t1]. simpl in Hiter. destruct Hiter as [Hq Hb].
    destruct f.
    + specialize (IH v1 w1).
      destruct (run h (scroll_loop fuel d max_scrolls pause timeout start_time v1) w1)
        as [[r w2] t2]. simpl in *.
      apply no_scroll_after_app; auto. intros Hex. specialize (Hb Hex). discriminate.
    + simpl. rewrite app_nil_r. exact Hq.
    + simpl. rewrite app_nil_r. exact Hq.
Qed.
End ScrollLoop.

Section ScrollErrors.
Context {W : Type} (h : handler W).
Variables (d : driver) (max_scrolls : Z) (pause : Q) (timeout : Z) (start_time : Q).

Lemma height_readings_app (t1 t2 : trace) :
  height_readings (t1 ++ t2) = height_readings t1 ++ height_readings t2.
Proof.
  induction t1 as [|e t1 IH]; simpl; [reflexivity|].
  destruct e; simpl; auto. destruct (String.eqb script height_script); simpl; congruence.
Qed.

(** An error from the height script inside the loop leaves the loop. *)
Lemma scroll_loop_height_raise (fuel : nat) (v : scroll_vars) (w : W) (e : exn) :
  let r := run h (scroll_loop fuel d max_scrolls pause timeout start_time v) w in
  In (Raise e) (height_readings r.2) -> exists v', r.1.1 = Some (v', Some e).
Proof.
  revert v w. induction fuel as [|fuel IH]; intros v w.
  - simpl. contradiction.
  - rewrite scroll_loop_S. destruct (scroll_attempts v <? max_scrolls).
    2:{ simpl. contradiction. }
    rewrite run_bind.
    pose proof (scroll_iteration_height_raise h d pause timeout start_time v w e) as Hi.
    cbv zeta in Hi.
    destruct (run h (scroll_iteration d pause timeout start_time v) w)
      as [[[v1 f] w1] t1]. simpl in Hi.
    destruct f.
    + specialize (IH v1 w1). cbv zeta in IH.
      destruct (run h (scroll_loop fuel d max_scrolls pause timeout start_time v1) w1)
        as [[r w2] t2]. simpl in *.
      rewrite height_readings_app. intros [Hin|Hin]%in_app_or; [|auto].
      specialize (Hi Hin). discriminate.
    + simpl. rewrite app_nil_r. intros Hin. specialize (Hi Hin). discriminate.
    + simpl. rewrite app_nil_r. intros Hin. specialize (Hi Hin).
      injection Hi as ->. eauto.
Qed.
End ScrollErrors.

(** ** Whole runs of [scroll_to_bottom] *)

(** The three ways a run of [scroll_to_bottom] can be laid out. *)
Lemma scroll_to_bottom_run {W : Type} (h : handler W) (w : W)
    (fuel : nat) (d : driver) (max_scrolls : Z) (pause : Q) (timeout : Z) :
  let r := run h (scroll_to_bottom fuel d max_scrolls pause timeout) w in
  (exists m e, r.2 = [ELog INFO m; EScript d height_script (Raise e)]
               /\ r.1.1 = Some (Raise e))
  \/ (exists m h0 start w2 tail,
        let l := run h (scroll_loop fuel d max_scrolls pause timeout start
                          (ScrollVars h0 0)) w2 in
        r.2 = ELog INFO m :: EScript d height_script (Ok h0) :: ETime start
              :: l.2 ++ tail
        /\ scroll_commands tail = 0%nat
        /\ height_readings tail = []
        /\ r.1.1 = match l.1.1 with
                   | None => None
                   | Some (_, Some e) => Some (Raise e)
                   | Some (_, None) => Some (Ok tt)
                   end).
Proof.
  unfold scroll_to_bottom. simpl.
  destruct (h _ (LogMsg INFO _) w) as [[] w0]. simpl.
  destruct (h _ (ExecuteScript d height_script) w0) as [[h0|e] w1]; simpl.
  2:{ left. eauto. }
  destruct (h _ TimeTime w1) as [start w2]. simpl.
  rewrite run_bind. right.
  destruct (run h (scroll_loop fuel d max_scrolls pause timeout start (ScrollVars h0 0)) w2)
    as [[r w3] t] eqn:El.
  destruct r as [[v [e|]]|]; simpl.
  - eexists; exists h0, start, w2; eexists. rewrite El. simpl.
    repeat split; reflexivity.
  - destruct (h _ (LogMsg INFO _) w3) as [[] w4]. simpl.
    eexists; exists h0, start, w2; eexists. rewrite El. simpl.
    repeat split; reflexivity.
  - eexists; exists h0, start, w2; eexists. rewrite El. simpl.
    repeat split; reflexivity.
Qed.

Lemma scroll_commands_zero_quiet (p : event -> bool) (t : trace) :
  scroll_commands t = 0%nat -> no_scroll_after p t.
Proof.
  intros H t1 e t2 -> _.
  rewrite scroll_commands_app, scroll_commands_cons in H. lia.
Qed.

(** C5, as the code has it.  In every run of [scroll_to_bottom], once the
    end-of-messages query has come back with an element, no further scroll
    command is sent.  The query is only made on a pass whose height
    measurement differs from the last recorded height: on a pass whose
    height is unchanged the marker is not looked for. *)
Theorem end_marker_stops_scrolling {W : Type} (h : handler W) :
  (forall w fuel d max_scrolls pause timeout,
      no_scroll_after marker_found
        (run_trace h (scroll_to_bottom fuel d max_scrolls pause timeout) w))
  /\ (forall w d pause timeout start_time v nh,
        height_readings (run_trace h (scroll_iteration d pause timeout start_time v) w)
        = [Ok nh] ->
        jsval_eqb nh (last_height v) = true ->
        end_queries (run_trace h (scroll_iteration d pause timeout start_time v) w) = []).
Proof.
  split.
  - intros w fuel d max_scrolls pause timeout. unfold run_trace.
    destruct (scroll_to_bottom_run h w fuel d max_scrolls pause timeout)
      as [(m & e & Ht & _) | (m & h0 & start & w2 & tail & Ht & Hs & _)];
      rewrite Ht; [quiet|].
    do 3 (apply no_scroll_after_cons; [discriminate|]).
    apply no_scroll_after_app.
    + apply scroll_loop_quiet. apply scroll_iteration_marker.
    + apply scroll_commands_zero_quiet, Hs.
    + intros _. exact Hs.
  - intros w d pause timeout start_time v nh Hh Heq.
    apply (scroll_iteration_unchanged h d pause timeout start_time v w nh Hh Heq).
Qed.

Lemma end_marker_stops_scrolling_witness :
  no_scroll_after marker_found
    (run_trace scripted (scroll_to_bottom 4 (Driver 0) 3 1 30)
       (set_heights [Ok (JsNum 100); Ok (JsNum 200)] marked_page))
  /\ end_queries (run_trace scripted
                    (scroll_iteration (Driver 0) 1 30 0 (ScrollVars (JsNum 100) 0))
                    marked_page) = [].
Proof.
  split.
  - apply (proj1 (end_marker_stops_scrolling scripted)).
  - apply (proj2 (end_marker_stops_scrolling scripted)) with (nh := JsNum 100);
      reflexivity.
Defined.

(** C5 as worded fails: on [marked_page] the marker is there on every pass
    (the query, were it made, would return an element), yet the height
    never changes, the query is never made, and the driver scrolls all
    three times it is allowed to. *)
Lemma end_marker_ignored_when_height_unchanged :
  (scripted _ (FindElements (Driver 0) css_selector end_marker) marked_page).1
  = Ok [WebElement 7]
  /\ end_queries (run_trace scripted (scroll_to_bottom 4 (Driver 0) 3 1 30) marked_page)
     = []
  /\ scroll_commands (run_trace scripted (scroll_to_bottom 4 (Driver 0) 3 1 30) marked_page)
     = 3%nat.
Proof. repeat split; vm_compute; reflexivity. Qed.




(** C6, as the code has it.  An error raised by the end-of-messages query is
    caught inside the pass: it is logged (at debug level) and the loop goes
    on to its next pass.  The height measurement is made outside any [try]:
    an error it raises is not logged by [scroll_to_bottom] and leaves the
    function, ending the loop. *)
Theorem scroll_errors {W : Type} (h : handler W) :
  (forall w d pause timeout start_time v e,
      let r := run h (scroll_iteration d pause timeout start_time v) w in
      In (Raise e) (end_queries r.2) ->
      r.1.1.2 = Continue
      /\ List.last r.2 (ELog INFO "") =
         ELog DEBUG ("Errore cercando indicatore fine messaggi: " +:+ exn_msg e))
  /\ (forall w fuel d max_scrolls pause timeout e,
        In (Raise e)
           (height_readings
              (run_trace h (scroll_to_bottom fuel d max_scrolls pause timeout) w)) ->
        run_value h (scroll_to_bottom fuel d max_scrolls pause timeout) w
        = Some (Raise e)).
Proof.
  split.
  - intros w d pause timeout start_time v e r Hin.
    destruct (scroll_iteration_query_raise h d pause timeout start_time v w e Hin)
      as (Hc & Hl & _). auto.
  - intros w fuel d max_scrolls pause timeout e. unfold run_trace, run_value.
    destruct (scroll_to_bottom_run h w fuel d max_scrolls pause timeout)
      as [(m & e0 & Ht & Hv) | (m & h0 & s & w2 & tail & Ht & _ & Hh & Hv)];
      rewrite Ht, Hv; simpl.
    + intros [[= ->]|[]]. reflexivity.
    + rewrite height_readings_app, Hh, app_nil_r. intros [Hd|Hin]; [discriminate Hd|].
      destruct (scroll_loop_height_raise h d max_scrolls pause timeout s fuel
                  (ScrollVars h0 0) w2 e Hin) as [v' ->]. reflexivity.
Qed.

Lemma scroll_errors_witness :
  (run scripted (scroll_iteration (Driver 0) 1 30 0 (ScrollVars (JsNum 0) 0))
       flaky_page).1.1.2 = Continue
  /\ run_value scripted (scroll_to_bottom 4 (Driver 0) 3 1 30) broken_page
     = Some (Raise detached).
Proof.
  split.
  - refine (proj1 (proj1 (scroll_errors scripted) flaky_page (Driver 0) 1%Q 30 0%Q
                      (ScrollVars (JsNum 0) 0) detached _)).
    simpl. left. reflexivity.
  - refine (proj2 (scroll_errors scripted) broken_page 4%nat (Driver 0) 3 1%Q 30
              detached _).
    simpl. right. left. reflexivity.
Defined.

(** C6 as worded fails for the height measurement: on [broken_page] the
    measurement of the first pass raises; the exception leaves
    [scroll_to_bottom], one scroll command was sent out of the three
    allowed, and the last thing the function did was that measurement
    (no log entry follows it). *)
Lemma height_error_aborts_scrolling :
  let r := run scripted (scroll_to_bottom 4 (Driver 0) 3 1 30) broken_page in
  r.1.1 = Some (Raise detached)
  /\ scroll_commands r.2 = 1%nat
  /\ List.last r.2 (ELog INFO "") = EScript (Driver 0) height_script (Raise detached).
Proof. repeat split; vm_compute; reflexivity. Qed.

(** ** The download loop *)

Section DownloadItem.
Context {W : Type} (h : handler W).
Variable output_dir : string.

Lemma not_seen (u : string) (s : gset string) :
  (String.eqb u "" || bool_decide (u ∈ s))%bool = false -> u <> "" /\ u ∉ s.
Proof.
  intros [H1 H2]%orb_false_elim. split.
  - intros ->. discriminate H1.
  - apply bool_decide_eq_false in H2. exact H2.
Qed.

(** A pass fetches at most one URL, one that was not in [seen], and puts
    it there before anything can fail. *)
Lemma download_item_fetch (v : dl_vars) (img : element) (w : W) :
  let r := run h (download_item output_dir v img) w in
  seen v ⊆ seen r.1.1.1
  /\ (forall u, In u (fetched_urls r.2) -> (u ∉ seen v) /\ (u ∈ seen r.1.1.1))
  /\ NoDup (fetched_urls r.2).
Proof.
  unfold download_item, item_except, write_file. exec h.
  all: (split; [|split]).
  all: lazymatch goal with
       | |- _ ⊆ _ => simpl; apply union_subseteq_r || reflexivity
       | |- NoDup [] => constructor
       | |- NoDup [_] => apply NoDup_singleton
       | |- forall _, False -> _ => intros ? []
       | |- forall _, _ \/ False -> _ =>
         intros ? [<-|[]]; apply not_seen in B as [_ B];
         split; [exact B | simpl; apply elem_of_union_l, elem_of_singleton; reflexivity]
       end.
Qed.
End DownloadItem.

Section DownloadLoop.
Context {W : Type} (h : handler W).
Variable output_dir : string.

Lemma download_loop_cons (img : element) (rest : list element) (v : dl_vars) :
  download_loop output_dir (img :: rest) v =
  download_item output_dir v img ≫= (fun '(v', x) =>
    match x with
    | Some e => mret (v', Some e)
    | None => download_loop output_dir rest v'
    end).
Proof. reflexivity. Qed.

Lemma fetched_urls_app (t1 t2 : trace) :
  fetched_urls (t1 ++ t2) = fetched_urls t1 ++ fetched_urls t2.
Proof.
  induction t1 as [|e t1 IH]; simpl; [reflexivity|].
  destruct e; simpl; congruence.
Qed.

(** The loop fetches no URL twice, and none that was in [seen] when it
    started. *)
Lemma download_loop_fetch (imgs : list element) (v : dl_vars) (w : W) :
  let r := run h (download_loop output_dir imgs v) w in
  NoDup (fetched_urls r.2)
  /\ (forall u, In u (fetched_urls r.2) -> u ∉ seen v).
Proof.
  revert v w. induction imgs as [|img rest IH]; intros v w.
  - simpl. split; [constructor | intros ? []].
  - rewrite download_loop_cons, run_bind.
    pose proof (download_item_fetch h output_dir v img w) as Hi. cbv zeta in Hi.
    destruct (run h (download_item output_dir v img) w) as [[[v1 x] w1] t1].
    simpl in Hi. destruct Hi as (Hsub & Hf & Hnd).
    destruct x as [e|].
    + simpl. rewrite app_nil_r. split; [exact Hnd|]. intros u Hu. apply Hf, Hu.
    + specialize (IH v1 w1). cbv zeta in IH.
      destruct (run h (download_loop output_dir rest v1) w1) as [[r w2] t2].
      simpl in *. destruct IH as [IH1 IH2]. rewrite fetched_urls_app. split.
      * apply NoDup_app. split; [exact Hnd|]. split; [|exact IH1].
        intros u Hu%list_elem_of_In Hu'%list_elem_of_In.
        apply (IH2 u Hu'). apply Hf, Hu.
      * intros u [Hu|Hu]%in_app_or; [apply Hf, Hu|].
        intros Hs. apply (IH2 u Hu). apply Hsub, Hs.
Qed.
End DownloadLoop.

(** The layout of a run of [download_images] that reaches the loop. *)
Lemma download_images_run {W : Type} (h : handler W) (w : W) (d : driver)
    (output_dir : string) :
  let r := run h (download_images d output_dir) w in
  (fetched_urls r.2 = [] /\ hrefs_read r.2 = [] /\ other_faults r.2 = 0%nat
   /\ links_found r.2 = None)
  \/ (exists m1 m2 imgs w1 tail,
        let l := run h (download_loop output_dir imgs dl_init) w1 in
        r.2 = EMakedirs output_dir (Ok tt) :: ELog INFO m1
              :: EFind d css_selector media_selector (Ok imgs) :: ELog INFO m2
              :: l.2 ++ tail
        /\ match l.1.1.2 with
           | Some e => tail = [] /\ r.1.1 = Raise e
           | None => tail = [ELog INFO (results_msg (downloaded l.1.1.1)
                                          (skipped l.1.1.1) (errors l.1.1.1))]
                     /\ r.1.1 = Ok tt
           end).
Proof.
  unfold download_images. simpl.
  destruct (h _ (Makedirs output_dir) w) as [[[]|e] w0]; simpl.
  2:{ left. repeat split; reflexivity. }
  destruct (h _ (LogMsg INFO _) w0) as [[] w1]. simpl.
  destruct (h _ (FindElements d css_selector media_selector) w1) as [[imgs|e] w2]; simpl.
  2:{ destruct (h _ (LogMsg ERROR _) w2) as [[] w3]. simpl.
      left. repeat split; reflexivity. }
  destruct (h _ (LogMsg INFO _) w2) as [[] w3]. simpl.
  rewrite run_bind. right.
  destruct (run h (download_loop output_dir imgs dl_init) w3) as [[[v x] w4] t] eqn:El.
  destruct x as [e|]; simpl.
  - do 2 eexists. exists imgs, w3, []. rewrite El. simpl. auto.
  - destruct (h _ (LogMsg INFO _) w4) as [[] w5]. simpl.
    do 2 eexists. exists imgs, w3. eexists. rewrite El. simpl. auto.
Qed.

Section DownloadSkip.
Context {W : Type} (h : handler W).
Variable output_dir : string.

(** A link whose [href] is already in [seen] is counted as skipped and
    nothing else happens on that pass. *)
Lemma download_item_seen (v : dl_vars) (img : element) (w : W) (u : string) :
  let r := run h (download_item output_dir v img) w in
  In (Some u) (hrefs_read r.2) ->
  u ∈ seen v ->
  r.2 = [EAttr img "href" (Ok (Some u))]
  /\ r.1.1 = (incr_skipped (set_url (Some u) v), None).
Proof.
  unfold download_item, item_except, write_file. exec h; intros Hin Hs;
    repeat (destruct Hin as [Hin|Hin]; [try discriminate Hin|]);
    try contradiction; try (injection Hin as ->); auto.
  all: apply not_seen in B as [_ B]; contradiction.
Qed.
End DownloadSkip.

(** C1. In a run of [download_images] no URL is handed to [requests.get]
    twice.  A link whose [href] is already in [seen] (the set of URLs for
    which a fetch was started earlier in the run) leads to no call at all:
    the only effect of that pass is [skipped += 1]. *)
Theorem each_url_fetched_once {W : Type} (h : handler W) :
  (forall w d output_dir,
      NoDup (fetched_urls (run_trace h (download_images d output_dir) w)))
  /\ (forall w output_dir v img u,
        let r := run h (download_item output_dir v img) w in
        In (Some u) (hrefs_read r.2) ->
        u ∈ seen v ->
        fetched_urls r.2 = []
        /\ skipped r.1.1.1 = skipped v + 1
        /\ downloaded r.1.1.1 = downloaded v
        /\ errors r.1.1.1 = errors v
        /\ r.1.1.2 = None).
Proof.
  split.
  - intros w d output_dir. unfold run_trace.
    destruct (download_images_run h w d output_dir)
      as [(-> & _) | (m1 & m2 & imgs & w1 & tail & Ht & Hx)]; [constructor|].
    rewrite Ht. simpl. rewrite fetched_urls_app.
    pose proof (download_loop_fetch h output_dir imgs dl_init w1) as [Hnd _].
    destruct (run h (download_loop output_dir imgs dl_init) w1) as [[[v x] w2] t].
    simpl in *. destruct x; destruct Hx as [-> _]; simpl; rewrite app_nil_r; exact Hnd.
  - intros w output_dir v img u r Hin Hs.
    destruct (download_item_seen h output_dir v img w u Hin Hs) as [Ht Hv].
    unfold r. rewrite Ht, Hv. simpl. auto.
Qed.

Lemma each_url_fetched_once_witness :
  NoDup (fetched_urls (run_trace scripted (download_images (Driver 0) "images") gallery))
  /\ fetched_urls (run scripted
                     (download_item "images"
                        (seen_add abc_url dl_init) (WebElement 2)) gallery).2 = [].
Proof.
  split.
  - apply (proj1 (each_url_fetched_once scripted)).
  - refine (proj1 (proj2 (each_url_fetched_once scripted) gallery "images"
                     (seen_add abc_url dl_init) (WebElement 2) abc_url _ _)).
    + simpl. left. reflexivity.
    + simpl. apply elem_of_union_l, elem_of_singleton. reflexivity.
Defined.


(** ** Failed fetches *)

(** [raise_for_status] raises exactly on the 4xx and 5xx codes. *)
Lemma raise_for_status_spec (resp : response) :
  raise_for_status resp <> None <-> 400 <= status_code resp < 600.
Proof.
  unfold raise_for_status.
  destruct (Z.leb_spec 400 (status_code resp)), (Z.ltb_spec (status_code resp) 500),
    (Z.leb_spec 500 (status_code resp)), (Z.ltb_spec (status_code resp) 600);
    simpl; split; intros Hx; try lia; try discriminate; try congruence.
Qed.

Section DownloadFailure.
Context {W : Type} (h : handler W).
Variable output_dir : string.

Lemma download_item_fetch_error (v : dl_vars) (img : element) (w : W)
    (u : string) (to : Z) (ans : result response) (e : exn) :
  let r := run h (download_item output_dir v img) w in
  In (EGet u to ans) r.2 ->
  fetch_error ans = Some e ->
  r.1.1 = (incr_errors (seen_add u (set_url (Some u) v)), None)
  /\ opened_paths r.2 = []
  /\ List.last r.2 (ELog INFO "") =
     if is_request_exception e
     then ELog WARNING ("Errore download " +:+ u +:+ ": " +:+ exn_msg e)
     else ELog ERROR ("Errore imprevisto con " +:+ u +:+ ": " +:+ exn_msg e).
Proof.
  unfold download_item, item_except, write_file. exec h; intros Hin Hf;
    repeat (destruct Hin as [Hin|Hin]; [try discriminate Hin|]);
    try contradiction; injection Hin as -> <- <-; simpl in Hf;
    try congruence.
  all: try (injection Hf as <-).
  all: try match goal with
           | H1 : raise_for_status ?a = Some _, H2 : raise_for_status ?a = Some _ |- _ =>
             rewrite H1 in H2; injection H2 as <-
           end.
  all: repeat match goal with
              | H : is_request_exception _ = _ |- _ => rewrite H; clear H
              end.
  all: auto.
Qed.
End DownloadFailure.

(** C7, as the code has it.  When [requests.get] raises, or returns a
    response with a 4xx or 5xx status (the statuses on which
    [raise_for_status] raises), the pass counts one error and nothing else,
    logs the failure with the URL, opens no file, and lets no exception out,
    so the loop goes on to the next link.  Other statuses outside 2xx (a
    3xx that is not followed, say) are not failures to the code. *)
Theorem failed_fetch_is_counted {W : Type} (h : handler W) (w : W)
    (output_dir : string) (v : dl_vars) (img : element)
    (u : string) (to : Z) (ans : result response) :
  let r := run h (download_item output_dir v img) w in
  In (EGet u to ans) r.2 ->
  (exists e, ans = Raise e)
  \/ (exists resp, ans = Ok resp /\ 400 <= status_code resp < 600) ->
  errors r.1.1.1 = errors v + 1
  /\ downloaded r.1.1.1 = downloaded v
  /\ skipped r.1.1.1 = skipped v
  /\ r.1.1.2 = None
  /\ opened_paths r.2 = []
  /\ exists e, fetch_error ans = Some e
       /\ List.last r.2 (ELog INFO "") =
          if is_request_exception e
          then ELog WARNING ("Errore download " +:+ u +:+ ": " +:+ exn_msg e)
          else ELog ERROR ("Errore imprevisto con " +:+ u +:+ ": " +:+ exn_msg e).
Proof.
  intros r Hin Hfail.
  assert (He : exists e, fetch_error ans = Some e).
  { destruct Hfail as [[e ->] | (resp & -> & Hs)]; simpl; [eauto|].
    apply raise_for_status_spec in Hs.
    destruct (raise_for_status resp) as [e|]; [eauto | contradiction]. }
  destruct He as [e He].
  destruct (download_item_fetch_error h output_dir v img w u to ans e Hin He)
    as (Hv & Ho & Hl).
  unfold r. rewrite Hv. simpl. repeat split; auto. exists e. split; auto.
Qed.

Lemma failed_fetch_is_counted_witness :
  let r := run scripted (download_item "images" dl_init (WebElement 3)) gallery in
  errors r.1.1.1 = 1 /\ downloaded r.1.1.1 = 0 /\ opened_paths r.2 = [].
Proof.
  destruct (failed_fetch_is_counted scripted gallery "images" dl_init (WebElement 3)
              def_url 10 (Ok (Response 404 "Not Found" def_url [])))
    as (He & Hd & _ & _ & Ho & _).
  - simpl. right. right. left. reflexivity.
  - right. eexists. split; [reflexivity|]. simpl. lia.
  - auto.
Defined.

(** C7 as worded fails for a status that is neither 2xx nor 4xx/5xx: when
    the CDN answers [304], no error is counted, the link is counted as
    downloaded and the (empty) body is written to the file. *)
Lemma non_2xx_status_not_counted :
  let r := run scripted (download_item "images" dl_init (WebElement 1)) not_modified in
  In (EGet abc_url 10 (Ok (Response 304 "Not Modified" abc_url []))) r.2
  /\ ~ (200 <= 304 < 300)
  /\ errors r.1.1.1 = 0
  /\ downloaded r.1.1.1 = 1
  /\ opened_paths r.2 = ["images/abc.png"]
  /\ files r.1.2 !! "images/abc.png" = Some [].
Proof.
  simpl. repeat split; try reflexivity; try lia.
  right. right. left. reflexivity.
Qed.

(** ** File names and paths *)

Section Strings.
Variable c : ascii.

Lemma hd_py_split_cons (a : ascii) (r : string) :
  Ascii.eqb a c = false ->
  hd "" (py_split c (String a r)) = String a (hd "" (py_split c r)).
Proof. intros Ha. simpl. rewrite Ha. destruct (py_split c r); reflexivity. Qed.

(** Everything before the first separator. *)
Lemma hd_py_split (p q : string) :
  has_char c p = false ->
  hd "" (py_split c (p +:+ String c q)) = p /\ hd "" (py_split c p) = p.
Proof.
  induction p as [|a p IH]; simpl; intros Hp.
  - rewrite Ascii.eqb_refl. auto.
  - apply orb_false_elim in Hp as [Ha Hp]. destruct (IH Hp) as [IH1 IH2].
    change (hd "" (py_split c (String a (p +:+ String c q))) = String a p
            /\ hd "" (py_split c (String a p)) = String a p).
    rewrite !hd_py_split_cons by exact Ha. rewrite IH1, IH2. auto.
Qed.

Lemma rfind_from_absent (s : string) (i found : Z) :
  has_char c s = false -> rfind_from c s i found = found.
Proof.
  revert i found. induction s as [|a s IH]; simpl; intros i found Hs; [reflexivity|].
  apply orb_false_elim in Hs as [Ha Hs]. rewrite Ha. apply IH, Hs.
Qed.

(** The last separator is found where it is. *)
Lemma rfind_from_last (p n : string) (i found : Z) :
  has_char c n = false ->
  rfind_from c (p +:+ String c n) i found = i + Z.of_nat (String.length p).
Proof.
  intros Hn. revert i found. induction p as [|a p IH]; intros i found.
  - simpl. rewrite Ascii.eqb_refl, rfind_from_absent by exact Hn. lia.
  - change (rfind_from c (p +:+ String c n) (i + 1) (if Ascii.eqb a c then i else found)
            = i + Z.of_nat (S (String.length p))).
    rewrite IH. lia.
Qed.

Lemma string_drop_app (p s : string) :
  string_drop (String.length p) (p +:+ s) = s.
Proof. induction p as [|a p IH]; simpl; [destruct s|]; auto. Qed.
End Strings.

Lemma append_cons (x : ascii) (a b : string) : String x a +:+ b = String x (a +:+ b).
Proof. reflexivity. Qed.

Lemma append_nil (b : string) : "" +:+ b = b.
Proof. reflexivity. Qed.

Lemma append_assoc (a b d : string) : (a +:+ b) +:+ d = a +:+ (b +:+ d).
Proof.
  induction a as [|x a IH]; rewrite ?append_nil, ?append_cons; congruence.
Qed.

Lemma length_append (a b : string) :
  String.length (a +:+ b) = (String.length a + String.length b)%nat.
Proof.
  induction a as [|x a IH]; rewrite ?append_nil, ?append_cons; simpl; congruence.
Qed.

Lemma basename_last_component (p name : string) :
  has_char "/" name = false ->
  basename (p +:+ "/" +:+ name) = name /\ basename name = name.
Proof.
  intros Hn. unfold basename, rfind. split.
  - change (p +:+ "/" +:+ name) with (p +:+ String "/" name).
    rewrite rfind_from_last by exact Hn.
    replace (Z.to_nat (0 + Z.of_nat (String.length p) + 1))
      with (String.length (p +:+ "/")) by (rewrite length_append; simpl; lia).
    change (p +:+ String "/" name) with (p +:+ ("/" +:+ name)).
    rewrite <- append_assoc. apply string_drop_app.
  - rewrite rfind_from_absent by exact Hn. reflexivity.
Qed.

Section DownloadSuccess.
Context {W : Type} (h : handler W).
Variable output_dir : string.

(** A pass that counts a download has read a URL, fetched it, and written
    the body to the file named after it, whatever was there before. *)
Lemma download_item_downloaded (v : dl_vars) (img : element) (w : W) :
  let r := run h (download_item output_dir v img) w in
  downloaded r.1.1.1 = downloaded v + 1 ->
  exists u resp,
    hrefs_read r.2 = [Some u]
    /\ fetched_urls r.2 = [u]
    /\ In (EGet u 10 (Ok resp)) r.2
    /\ opened_paths r.2 = [path_join output_dir (file_name_of u)]
    /\ In (EWrite (path_join output_dir (file_name_of u)) (content resp) (Ok tt)) r.2
    /\ forall fs,
        fs_apply r.2 fs !! path_join output_dir (file_name_of u) = Some (content resp).
Proof.
  unfold download_item, item_except, write_file. exec h; intros Hd; try lia.
  repeat match goal with x : unit |- _ => destruct x end.
  do 2 eexists. repeat split; try reflexivity.
  - right. right. left. reflexivity.
  - do 4 right. left. reflexivity.
  - intros fs. simpl. apply lookup_insert_eq.
Qed.
End DownloadSuccess.

(** C8. The file name is what follows the last [/] in the part of the URL
    before the first [?]: a URL ending in [/abc.png?ex=123] gives
    [abc.png].  A pass that counts a download opens
    [os.path.join(output_dir, name)] for writing in mode [wb] and writes the
    response body there, so that the file then holds exactly that body
    whatever it held before; for an [output_dir] without trailing slash the
    path reads [output_dir/name]. *)
Theorem file_name_and_path {W : Type} (h : handler W) :
  (forall p name q,
      has_char "?" p = false ->
      has_char "/" name = false ->
      has_char "?" name = false ->
      file_name_of (p +:+ "/" +:+ name +:+ "?" +:+ q) = name
      /\ file_name_of (p +:+ "/" +:+ name) = name)
  /\ (forall p, has_char "?" p = false ->
                file_name_of (p +:+ "/abc.png?ex=123") = "abc.png")
  /\ (forall w output_dir v img,
        let r := run h (download_item output_dir v img) w in
        downloaded r.1.1.1 = downloaded v + 1 ->
        exists u resp,
          hrefs_read r.2 = [Some u]
          /\ In (EGet u 10 (Ok resp)) r.2
          /\ opened_paths r.2 = [path_join output_dir (file_name_of u)]
          /\ forall fs,
              fs_apply r.2 fs !! path_join output_dir (file_name_of u)
              = Some (content resp))
  /\ (forall output_dir name,
        output_dir <> "" ->
        endswith output_dir "/" = false ->
        has_char "/" name = false ->
        path_join output_dir name = output_dir +:+ "/" +:+ name).
Proof.
  assert (Hname : forall p name q,
             has_char "?" p = false ->
             has_char "/" name = false ->
             has_char "?" name = false ->
             file_name_of (p +:+ "/" +:+ name +:+ "?" +:+ q) = name
             /\ file_name_of (p +:+ "/" +:+ name) = name).
  { intros p name q Hp Hn Hq. unfold file_name_of.
    assert (Hpn : has_char "?" (p +:+ "/" +:+ name) = false).
    { clear Hn. induction p as [|a p IH]; rewrite ?append_nil, ?append_cons; simpl.
      - exact Hq.
      - simpl in Hp. apply orb_false_elim in Hp as [-> Hp]. simpl. apply IH, Hp. }
    destruct (hd_py_split "?" (p +:+ "/" +:+ name) q Hpn) as [H1 H2].
    replace (p +:+ "/" +:+ name +:+ "?" +:+ q)
      with ((p +:+ "/" +:+ name) +:+ String "?" q)
      by (rewrite !append_assoc; reflexivity).
    rewrite H1, H2. split; apply basename_last_component, Hn. }
  split; [exact Hname|]. split; [|split].
  - intros p Hp. apply (proj1 (Hname p "abc.png" "ex=123" Hp eq_refl eq_refl)).
  - intros w output_dir v img r Hd.
    destruct (download_item_downloaded h output_dir v img w Hd)
      as (u & resp & H1 & _ & H2 & H3 & _ & H4).
    exists u, resp. auto.
  - intros output_dir name Hne He Hn. unfold path_join.
    destruct name as [|a name]; simpl.
    + rewrite He. destruct output_dir; [contradiction | reflexivity].
    + simpl in Hn. apply orb_false_elim in Hn as [-> _].
      rewrite He. destruct output_dir; [contradiction | reflexivity].
Qed.

Lemma file_name_and_path_witness :
  file_name_of abc_url = "abc.png"
  /\ path_join "images" "abc.png" = "images/abc.png"
  /\ files gallery !! "images/abc.png" = Some [x00]
  /\ exists u resp,
      fs_apply (run scripted (download_item "images" dl_init (WebElement 1)) gallery).2
               (files gallery)
      !! path_join "images" (file_name_of u) = Some (content resp)
      /\ u = abc_url /\ content resp = abc_bytes.
Proof.
  pose proof (file_name_and_path scripted) as (_ & Hex & Hrun & Hjoin).
  split; [|split; [|split]].
  - apply (Hex "https://cdn.discordapp.com/attachments/1/2"). reflexivity.
  - apply (Hjoin "images" "abc.png"); [discriminate | reflexivity | reflexivity].
  - reflexivity.
  - destruct (Hrun gallery "images" dl_init (WebElement 1) eq_refl)
      as (u & resp & Hh & Hg & _ & Hfs).
    exists u, resp. split; [apply Hfs|].
    simpl in Hh, Hg. injection Hh as <-.
    destruct Hg as [Hg|[Hg|[Hg|Hg]]]; try discriminate Hg.
    + injection Hg as <-. split; reflexivity.
    + repeat (destruct Hg as [Hg|Hg]; [discriminate Hg|]). contradiction.
Defined.

(** ** Counting outcomes *)

Section Counters.
Context {W : Type} (h : handler W).
Variable output_dir : string.

(** Every pass adds one to exactly one counter.  An exception leaves the
    pass only when [url] was still unbound, and then the attribute read
    is what failed. *)
Lemma download_item_counts (v : dl_vars) (img : element) (w : W) :
  let r := run h (download_item output_dir v img) w in
  downloaded r.1.1.1 + skipped r.1.1.1 + errors r.1.1.1
  = downloaded v + skipped v + errors v + 1
  /\ (r.1.1.2 <> None -> url v = None /\ hrefs_read r.2 = [])
  /\ (url v <> None -> url r.1.1.1 <> None).
Proof.
  unfold download_item, item_except, write_file. exec h.
  all: repeat split; try lia; try congruence; try discriminate.
Qed.

(** A pass in which neither the attribute read nor the file raised. *)
Lemma download_item_clean (v : dl_vars) (img : element) (w : W) :
  let r := run h (download_item output_dir v img) w in
  other_faults r.2 = 0%nat ->
  exists a,
    hrefs_read r.2 = [a]
    /\ r.1.1.2 = None
    /\ if skips (seen v) a
       then seen r.1.1.1 = seen v
            /\ fetch_failures r.2 = 0%nat
            /\ skipped r.1.1.1 = skipped v + 1
            /\ errors r.1.1.1 = errors v
            /\ downloaded r.1.1.1 = downloaded v
       else exists u,
            a = Some u
            /\ seen r.1.1.1 = {[u]} ∪ seen v
            /\ (fetch_failures r.2 <= 1)%nat
            /\ skipped r.1.1.1 = skipped v
            /\ errors r.1.1.1 = errors v + Z.of_nat (fetch_failures r.2)
            /\ downloaded r.1.1.1 = downloaded v + 1 - Z.of_nat (fetch_failures r.2).
Proof.
  unfold download_item, item_except, write_file. exec h; intros Hc;
    try discriminate Hc; eexists; (split; [reflexivity|]); (split; [reflexivity|]);
    simpl; rewrite ?B, ?B0; simpl; rewrite ?O0, ?O1; simpl;
    try congruence; repeat split; eauto 10 with lia.
  all: eexists; repeat split; try reflexivity; simpl; lia.
Qed.
End Counters.

Section CounterLoop.
Context {W : Type} (h : handler W).
Variable output_dir : string.

Lemma hrefs_read_app (t1 t2 : trace) :
  hrefs_read (t1 ++ t2) = hrefs_read t1 ++ hrefs_read t2.
Proof.
  induction t1 as [|e t1 IH]; simpl; [reflexivity|].
  destruct e; simpl; try congruence. destruct r; simpl; congruence.
Qed.

Lemma fetch_failures_app (t1 t2 : trace) :
  fetch_failures (t1 ++ t2) = (fetch_failures t1 + fetch_failures t2)%nat.
Proof.
  induction t1 as [|e t1 IH]; simpl; [reflexivity|].
  destruct e; simpl; try congruence. destruct (fetch_error r); simpl; congruence.
Qed.

Lemma other_faults_app (t1 t2 : trace) :
  other_faults (t1 ++ t2) = (other_faults t1 + other_faults t2)%nat.
Proof.
  induction t1 as [|e t1 IH]; simpl; [reflexivity|].
  destruct e; simpl; try congruence; destruct r; simpl; congruence.
Qed.

Lemma skips_earlier (earlier : list string) (v : dl_vars) (u : string) :
  lists_seen earlier v ->
  bool_decide (u ∈ seen v) = existsb (String.eqb u) earlier.
Proof.
  intros Hl. destruct (existsb (String.eqb u) earlier) eqn:Hex.
  - apply bool_decide_eq_true, Hl. apply existsb_exists in Hex as (x & Hx & Heq).
    apply String.eqb_eq in Heq. subst. exact Hx.
  - apply bool_decide_eq_false. intros Hin%Hl.
    assert (existsb (String.eqb u) earlier = true); [|congruence].
    apply existsb_exists. exists u. split; [exact Hin | apply String.eqb_refl].
Qed.

(** When no attribute read and no file operation raises, the loop runs to
    its end and its counters are determined by the [href]s read and by
    the number of failed fetches. *)
Lemma download_loop_counts (imgs : list element) (v : dl_vars) (w : W)
    (earlier : list string) :
  let r := run h (download_loop output_dir imgs v) w in
  lists_seen earlier v ->
  other_faults r.2 = 0%nat ->
  let M := Z.of_nat (duplicates_or_absent earlier (hrefs_read r.2)) in
  let K := Z.of_nat (fetch_failures r.2) in
  r.1.1.2 = None
  /\ length (hrefs_read r.2) = length imgs
  /\ skipped r.1.1.1 = skipped v + M
  /\ errors r.1.1.1 = errors v + K
  /\ downloaded r.1.1.1 = downloaded v + (Z.of_nat (length imgs) - M - K).
Proof.
  revert v w earlier. induction imgs as [|img rest IH]; intros v w earlier.
  - simpl. intros _ _. repeat split; lia.
  - rewrite download_loop_cons, run_bind.
    pose proof (download_item_clean h output_dir v img w) as Hi. cbv zeta in Hi.
    destruct (run h (download_item output_dir v img) w) as [[[v1 x] w1] t1].
    simpl in Hi.
    destruct x as [e|].
    + simpl. rewrite app_nil_r. intros Hl Hc.
      destruct (Hi Hc) as (a & _ & Hx & _). discriminate Hx.
    + specialize (IH v1 w1). cbv zeta in IH.
      destruct (run h (download_loop output_dir rest v1) w1) as [[[v2 x2] w2] t2].
      simpl in *. intros Hl Hc. rewrite other_faults_app in Hc.
      destruct (Hi ltac:(lia)) as (a & Ha & _ & Hcase). clear Hi.
      rewrite hrefs_read_app, fetch_failures_app, Ha. simpl.
      destruct a as [u|]; simpl in Hcase.
      * rewrite (skips_earlier earlier v u Hl) in Hcase.
        destruct (String.eqb u "" || existsb (String.eqb u) earlier)%bool.
        -- destruct Hcase as (Hs & Hf & H1 & H2 & H3).
           destruct (IH earlier) as (J0 & J1 & J2 & J3 & J4); [|lia|].
           { intros u'. rewrite Hs. apply Hl. }
           repeat split; auto; lia.
        -- destruct Hcase as (u' & [= <-] & Hs & Hf & H1 & H2 & H3).
           destruct (IH (u :: earlier)) as (J0 & J1 & J2 & J3 & J4); [|lia|].
           { intros u'. rewrite Hs, elem_of_union, elem_of_singleton, (Hl u').
             simpl. split; intros [Hx|Hx]; auto. }
           repeat split; auto; lia.
      * destruct Hcase as (Hs & Hf & H1 & H2 & H3).
        destruct (IH earlier) as (J0 & J1 & J2 & J3 & J4); [|lia|].
        { intros u'. rewrite Hs. apply Hl. }
        repeat split; auto; lia.
Qed.

(** Whatever happens, one pass of the loop moves exactly one counter by
    one; when the loop runs to its end the counters add up to the number
    of links. *)
Lemma download_loop_partition (imgs : list element) (v : dl_vars) (w : W) :
  let r := run h (download_loop output_dir imgs v) w in
  (r.1.1.2 = None ->
   downloaded r.1.1.1 + skipped r.1.1.1 + errors r.1.1.1
   = downloaded v + skipped v + errors v + Z.of_nat (length imgs))
  /\ (url v <> None -> r.1.1.2 = None).
Proof.
  revert v w. induction imgs as [|img rest IH]; intros v w.
  - simpl. split; [lia | reflexivity].
  - rewrite download_loop_cons, run_bind.
    pose proof (download_item_counts h output_dir v img w) as Hi. cbv zeta in Hi.
    destruct (run h (download_item output_dir v img) w) as [[[v1 x] w1] t1].
    simpl in Hi. destruct Hi as (Hsum & Hx & Hu).
    destruct x as [e|].
    + simpl. split; [discriminate|]. intros Hb.
      destruct Hx as [Hx _]; [discriminate | contradiction].
    + specialize (IH v1 w1). cbv zeta in IH.
      destruct (run h (download_loop output_dir rest v1) w1) as [[[v2 x2] w2] t2].
      simpl in *. destruct IH as [IH1 IH2]. split.
      * intros Hn. specialize (IH1 Hn). lia.
      * intros Hb. apply IH2, Hu, Hb.
Qed.
End CounterLoop.

(** C2, as the code has it.  Take a run of [download_images] that finds [N]
    links, in which no attribute read and no file operation raises.  Let
    [M] be the number of links whose [href] is absent, empty or equal to one
    read before it, and [K] the number of fetches that failed.  Then the
    run ends by logging [N - M - K] downloaded, [M] skipped, [K] errors.
    (A failure to open, write or close the file is counted as an error
    too, so a run with such failures reports more than [K] errors.) *)
Theorem download_report {W : Type} (h : handler W) (w : W) (d : driver)
    (output_dir : string) (imgs : list element) :
  let r := run h (download_images d output_dir) w in
  links_found r.2 = Some imgs ->
  other_faults r.2 = 0%nat ->
  let N := Z.of_nat (length imgs) in
  let M := Z.of_nat (duplicates_or_absent [] (hrefs_read r.2)) in
  let K := Z.of_nat (fetch_failures r.2) in
  r.1.1 = Ok tt
  /\ length (hrefs_read r.2) = length imgs
  /\ List.last r.2 (ELog INFO "") = ELog INFO (results_msg (N - M - K) M K).
Proof.
  pose proof (download_images_run h w d output_dir) as Hrun. cbv zeta in Hrun.
  destruct (run h (download_images d output_dir) w) as [[rv rw] rt].
  cbv zeta. unfold fst, snd in *.
  destruct Hrun as [(_ & _ & _ & Hn) | (m1 & m2 & imgs' & w1 & tail & Ht & Hx)].
  { rewrite Hn. discriminate. }
  pose proof (download_loop_counts h output_dir imgs' dl_init w1 []) as Hl.
  cbv zeta in Hl.
  destruct (run h (download_loop output_dir imgs' dl_init) w1) as [[[v x] w2] t].
  unfold fst, snd in *. subst rt. intros Hlf Hc.
  simpl in Hlf. injection Hlf as ->.
  cbn [hrefs_read fetch_failures other_faults] in *.
  rewrite hrefs_read_app, fetch_failures_app. rewrite other_faults_app in Hc.
  destruct Hl as (Hx' & Hlen & Hs & He & Hd).
  { intros u. split; [intros Hu; apply not_elem_of_empty in Hu as [] | intros []]. }
  { lia. }
  subst x. destruct Hx as [-> Hv].
  cbn [hrefs_read fetch_failures other_faults] in *. rewrite !app_nil_r, !Nat.add_0_r.
  split; [exact Hv|]. split; [exact Hlen|].
  simpl in Hs, He, Hd. rewrite Z.add_0_l in Hs, He, Hd.
  rewrite <- Hs, <- He in Hd |- *. rewrite <- Hd.
  assert (Hlast : forall (l : trace) e, List.last (l ++ [e]) (ELog INFO "") = e)
    by (intros; apply last_last).
  exact (Hlast (_ :: _ :: _ :: _ :: t) _).
Qed.

Lemma download_report_witness :
  List.last (run scripted (download_images (Driver 0) "images") gallery).2 (ELog INFO "")
  = ELog INFO (results_msg (4 - 2 - 1) 2 1).
Proof.
  refine (proj2 (proj2 (download_report scripted gallery (Driver 0) "images"
                          [WebElement 1; WebElement 2; WebElement 3; WebElement 4]
                          _ _))); reflexivity.
Defined.

(** C2 as worded fails when something other than the fetch goes wrong.  On
    [read_only_disk] there is one link, no duplicate and no failed fetch
    ([N = 1], [M = 0], [K = 0]), but the file cannot be opened: the run
    reports 0 downloaded and 1 error, not 1 downloaded and 0 errors. *)
Lemma report_counts_file_errors :
  let r := run scripted (download_images (Driver 0) "images") read_only_disk in
  links_found r.2 = Some [WebElement 1]
  /\ duplicates_or_absent [] (hrefs_read r.2) = 0%nat
  /\ fetch_failures r.2 = 0%nat
  /\ List.last r.2 (ELog INFO "") = ELog INFO (results_msg 0 0 1)
  /\ List.last r.2 (ELog INFO "") <> ELog INFO (results_msg (1 - 0 - 0) 0 0).
Proof.
  simpl. repeat split; try reflexivity. vm_compute. discriminate.
Qed.

(** C10 and the code part ways on [stale_first_link]: two links are found;
    reading the [href] of the first raises; the [except] clause counts the
    error and then formats [url], which has never been assigned; the
    [UnboundLocalError] raised there leaves the loop and the function.  The
    counters stand at 0, 0 and 1 for two links, the second link is never
    looked at, and no result line is logged. *)
Theorem unbound_url_aborts_download :
  let r := run scripted (download_images (Driver 0) "images") stale_first_link in
  let l := run scripted
             (download_loop "images" [WebElement 1; WebElement 2] dl_init)
             stale_first_link in
  links_found r.2 = Some [WebElement 1; WebElement 2]
  /\ r.1.1 = Raise unbound_url
  /\ l.1.1.2 = Some unbound_url
  /\ (downloaded l.1.1.1, skipped l.1.1.1, errors l.1.1.1) = (0, 0, 1)
  /\ downloaded l.1.1.1 + skipped l.1.1.1 + errors l.1.1.1 <> 2
  /\ List.last r.2 (ELog INFO "") = EAttr (WebElement 1) "href" (Raise detached).
Proof.
  simpl. repeat split; try reflexivity. discriminate.
Qed.

(** What does hold of the counters: when the loop runs to its end they add
    up to the number of links, and it runs to its end whenever [url] is
    bound before the first failure of an attribute read. *)
Lemma counters_partition_links {W : Type} (h : handler W) (w : W)
    (output_dir : string) (imgs : list element) :
  let r := run h (download_loop output_dir imgs dl_init) w in
  r.1.1.2 = None ->
  downloaded r.1.1.1 + skipped r.1.1.1 + errors r.1.1.1 = Z.of_nat (length imgs).
Proof.
  intros r Hn.
  pose proof (proj1 (download_loop_partition h output_dir imgs dl_init w) Hn) as Hp.
  simpl in Hp. exact Hp.
Qed.

(** ** Setup *)

(** C9. In a run of [main] in which [os.path.exists] answers [False] for the
    profile directory, [setup_driver] raises [FileNotFoundError] before
    [webdriver.Chrome] is called: the run contains no browser call at all
    (no session is created, nothing is navigated to, nothing is quit).  The
    error is logged by [setup_driver] and again by [main], which then
    returns. *)
Theorem missing_profile_is_fatal {W : Type} (h : handler W) (w : W)
    (fuel : nat) (a : args) (p : string) :
  let r := run h (main fuel a) w in
  first_exists r.2 = Some (p, false) ->
  browser_events r.2 = []
  /\ r.1.1 = Some (Ok tt)
  /\ In (EAbs (profile a) p) r.2
  /\ In (ELog ERROR ("Errore durante l'inizializzazione del driver: "
                     +:+ "Cartella del profilo non trovata: " +:+ p)) r.2
  /\ List.last r.2 (ELog INFO "")
     = ELog ERROR ("Errore durante l'esecuzione: "
                   +:+ "Cartella del profilo non trovata: " +:+ p).
Proof.
  unfold main, main_try, setup_driver, setup_driver_try. simpl.
  destruct (debug a); simpl.
  - do 6 ask h. destruct b; simpl.
    + intros Hf. exfalso.
      repeat match type of Hf with
             | context [run h ?q ?w'] => destruct (run h q w') as [[? ?] ?]
             end.
      simpl in Hf. discriminate Hf.
    + do 2 ask h. intros [= <-]. repeat split; auto 10.
  - do 4 ask h. destruct b; simpl.
    + intros Hf. exfalso.
      repeat match type of Hf with
             | context [run h ?q ?w'] => destruct (run h q w') as [[? ?] ?]
             end.
      simpl in Hf. discriminate Hf.
    + do 2 ask h. intros [= <-]. repeat split; auto 10.
Qed.

Lemma missing_profile_is_fatal_witness :
  let r := run scripted (main 4 sample_args) no_profile in
  first_exists r.2 = Some ("/home/user/chrome-profile", false)
  /\ browser_events r.2 = []
  /\ r.1.1 = Some (Ok tt).
Proof.
  split; [reflexivity|].
  destruct (missing_profile_is_fatal scripted no_profile 4 sample_args
              "/home/user/chrome-profile" eq_refl) as (Hb & Hv & _).
  split; [exact Hb | exact Hv].
Defined.

(** * Further properties of the downloader *)

Section Files.
Context {W : Type} (h : handler W).
Variable output_dir : string.

(** In one pass: a file is opened exactly when the fetch went through, at
    the path of the URL; what is written is the body; what was opened is
    closed. *)
Lemma download_item_files (v : dl_vars) (img : element) (w : W) :
  let r := run h (download_item output_dir v img) w in
  opened_paths r.2 = map (fun ub => path_of output_dir ub.1) (fetched_ok r.2)
  /\ opened_ok r.2 = closed_paths r.2
  /\ incl (writes r.2)
          (map (fun ub => (path_of output_dir ub.1, ub.2)) (fetched_ok r.2)).
Proof.
  unfold download_item, item_except, write_file. exec h.
  all: try congruence.
  all: repeat split; try reflexivity; try apply incl_nil_l; try apply incl_refl.
Qed.

(** In one pass in which neither [open] nor [write] raises, the file system
    changes as if the fetched body had been stored at the path of its URL. *)
Lemma download_item_disk (v : dl_vars) (img : element) (w : W) :
  let r := run h (download_item output_dir v img) w in
  write_faults r.2 = 0%nat ->
  forall fs p,
    fs_apply r.2 fs !! p = final_body output_dir p (fetched_ok r.2) (fs !! p).
Proof.
  unfold download_item, item_except, write_file. exec h; intros Hw;
    try discriminate Hw; try congruence; intros fs p; try reflexivity.
  all: unfold final_body, path_of, file_name_of; simpl.
  all: destruct (String.eqb_spec
                   (path_join output_dir (basename (hd "" (py_split "?" s)))) p)
         as [->|Hne].
  all: try (rewrite lookup_insert_eq; reflexivity).
  all: rewrite !lookup_insert_ne by exact Hne; reflexivity.
Qed.
End Files.

Section FilesLoop.
Context {W : Type} (h : handler W).
Variable output_dir : string.

Lemma opened_paths_app (t1 t2 : trace) :
  opened_paths (t1 ++ t2) = opened_paths t1 ++ opened_paths t2.
Proof.
  induction t1 as [|e t1 IH]; simpl; [reflexivity|].
  destruct e; simpl; congruence.
Qed.

Lemma fs_apply_app (t1 t2 : trace) (fs : gmap string (list byte)) :
  fs_apply (t1 ++ t2) fs = fs_apply t2 (fs_apply t1 fs).
Proof.
  revert fs. induction t1 as [|e t1 IH]; intros fs; simpl; [reflexivity|].
  destruct e; simpl; auto; destruct r; simpl; auto.
Qed.

Lemma fetched_ok_app (t1 t2 : trace) :
  fetched_ok (t1 ++ t2) = fetched_ok t1 ++ fetched_ok t2.
Proof. apply flat_map_app. Qed.

Lemma write_faults_app (t1 t2 : trace) :
  write_faults (t1 ++ t2) = (write_faults t1 + write_faults t2)%nat.
Proof. unfold write_faults. rewrite flat_map_app, length_app. reflexivity. Qed.

Lemma final_body_app (p : string) (l1 l2 : list (string * list byte))
    (init : option (list byte)) :
  final_body output_dir p (l1 ++ l2) init
  = final_body output_dir p l2 (final_body output_dir p l1 init).
Proof. apply fold_left_app. Qed.

Lemma download_loop_files (imgs : list element) (v : dl_vars) (w : W) :
  let r := run h (download_loop output_dir imgs v) w in
  opened_paths r.2 = map (fun ub => path_of output_dir ub.1) (fetched_ok r.2)
  /\ opened_ok r.2 = closed_paths r.2
  /\ incl (writes r.2)
          (map (fun ub => (path_of output_dir ub.1, ub.2)) (fetched_ok r.2)).
Proof.
  revert v w. induction imgs as [|img rest IH]; intros v w.
  - simpl. repeat split. apply incl_nil_l.
  - rewrite download_loop_cons, run_bind.
    pose proof (download_item_files h output_dir v img w) as Hi. cbv zeta in Hi.
    destruct (run h (download_item output_dir v img) w) as [[[v1 x] w1] t1].
    simpl in Hi. destruct Hi as (H1 & H2 & H3).
    destruct x as [e|].
    + simpl. rewrite app_nil_r. auto.
    + specialize (IH v1 w1). cbv zeta in IH.
      destruct (run h (download_loop output_dir rest v1) w1) as [[r w2] t2].
      simpl in *. destruct IH as (J1 & J2 & J3).
      rewrite opened_paths_app, fetched_ok_app, !map_app.
      unfold opened_ok, closed_paths, writes in *. rewrite !flat_map_app.
      repeat split; try congruence. apply incl_app_app; assumption.
Qed.

Lemma download_loop_disk (imgs : list element) (v : dl_vars) (w : W) :
  let r := run h (download_loop output_dir imgs v) w in
  write_faults r.2 = 0%nat ->
  forall fs p,
    fs_apply r.2 fs !! p = final_body output_dir p (fetched_ok r.2) (fs !! p).
Proof.
  revert v w. induction imgs as [|img rest IH]; intros v w.
  - simpl. reflexivity.
  - rewrite download_loop_cons, run_bind.
    pose proof (download_item_disk h output_dir v img w) as Hi. cbv zeta in Hi.
    destruct (run h (download_item output_dir v img) w) as [[[v1 x] w1] t1].
    simpl in Hi.
    destruct x as [e|].
    + simpl. rewrite app_nil_r. exact Hi.
    + specialize (IH v1 w1). cbv zeta in IH.
      destruct (run h (download_loop output_dir rest v1) w1) as [[r w2] t2].
      simpl in *. rewrite write_faults_app. intros Hw fs p.
      rewrite fs_apply_app, fetched_ok_app, final_body_app.
      rewrite IH by lia. rewrite Hi by lia. reflexivity.
Qed.
End FilesLoop.

(** Every way a run of [download_images] can be laid out. *)
Lemma download_images_layout {W : Type} (h : handler W) (w : W) (d : driver)
    (output_dir : string) :
  let r := run h (download_images d output_dir) w in
  (exists e, r.2 = [EMakedirs output_dir (Raise e)] /\ r.1.1 = Raise e)
  \/ (exists e,
        r.2 = [EMakedirs output_dir (Ok tt);
               ELog INFO ("Download immagini nella cartella: " +:+ output_dir);
               EFind d css_selector media_selector (Raise e);
               ELog ERROR ("Errore cercando immagini: " +:+ exn_msg e)]
        /\ r.1.1 = Ok tt)
  \/ (exists imgs w1,
        let l := run h (download_loop output_dir imgs dl_init) w1 in
        exists tail,
        r.2 = EMakedirs output_dir (Ok tt)
              :: ELog INFO ("Download immagini nella cartella: " +:+ output_dir)
              :: EFind d css_selector media_selector (Ok imgs)
              :: ELog INFO ("Trovate " +:+ pretty (Z.of_nat (length imgs))
                            +:+ " immagini potenziali")
              :: l.2 ++ tail
        /\ match l.1.1.2 with
           | Some e => tail = [] /\ r.1.1 = Raise e
           | None => tail = [ELog INFO (results_msg (downloaded l.1.1.1)
                                          (skipped l.1.1.1) (errors l.1.1.1))]
                     /\ r.1.1 = Ok tt
           end).
Proof.
  unfold download_images. simpl.
  destruct (h _ (Makedirs output_dir) w) as [[[]|e] w0]; simpl.
  2:{ left. eauto. }
  destruct (h _ (LogMsg INFO _) w0) as [[] w1]. simpl.
  destruct (h _ (FindElements d css_selector media_selector) w1) as [[imgs|e] w2]; simpl.
  2:{ destruct (h _ (LogMsg ERROR _) w2) as [[] w3]. simpl. right. left. eauto. }
  destruct (h _ (LogMsg INFO _) w2) as [[] w3]. simpl.
  rewrite run_bind. right. right. exists imgs, w3. cbv zeta.
  destruct (run h (download_loop output_dir imgs dl_init) w3) as [[[v x] w4] t].
  destruct x as [e|]; simpl.
  - exists []. auto.
  - destruct (h _ (LogMsg INFO _) w4) as [[] w5]. simpl. eexists. auto.
Qed.

(** Split a run of [download_images] into its cases, with the loop's run
    named. *)
Ltac layout_download h w d output_dir :=
  let Hrun := fresh "Hrun" in
  pose proof (download_images_layout h w d output_dir) as Hrun; cbv zeta in Hrun;
  destruct (run h (download_images d output_dir) w) as [[?rv ?rw] ?rt];
  cbn [fst snd] in Hrun |- *;
  destruct Hrun as [(?e & -> & ->) | [(?e & -> & ->) | (?imgs & ?w1 & ?tail & -> & ?Hx)]].

(** Name the parts of the loop's run after a lemma about it has been posed. *)
Ltac name_loop h output_dir imgs w1 :=
  destruct (run h (download_loop output_dir imgs dl_init) w1) as [[[?v ?x] ?w2] ?t];
  cbn [fst snd] in *.

(** X: files and fetches.  In every run of [download_images] a file is
    opened exactly once for every fetch that went through, in the same
    order, at [os.path.join(output_dir, name)] for the name derived from the
    fetched URL; nothing is opened for a link that was skipped or whose
    fetch failed, and nothing but fetched bodies is ever written. *)
Theorem files_follow_fetches {W : Type} (h : handler W) (w : W) (d : driver)
    (output_dir : string) :
  let r := run h (download_images d output_dir) w in
  opened_paths r.2 = map (fun ub => path_of output_dir ub.1) (fetched_ok r.2)
  /\ incl (writes r.2)
          (map (fun ub => (path_of output_dir ub.1, ub.2)) (fetched_ok r.2)).
Proof.
  layout_download h w d output_dir; try (split; [reflexivity | apply incl_nil_l]).
  pose proof (download_loop_files h output_dir imgs dl_init w1) as (H1 & _ & H3).
  name_loop h output_dir imgs w1.
  assert (Ht : opened_paths tail = [] /\ fetched_ok tail = [] /\ writes tail = [])
    by (destruct x; destruct Hx as [-> _]; auto).
  destruct Ht as (T1 & T2 & T3).
  cbn [opened_paths]. unfold fetched_ok, writes in *. cbn [flat_map app].
  rewrite opened_paths_app, !flat_map_app, T1, T2, T3, !app_nil_r. auto.
Qed.

(** X: the [with] statement.  In every run of [download_images] the files
    that were opened successfully are exactly the files closed, in the same
    order: a file is closed once, whether or not its write raised, and
    nothing is closed that was not opened. *)
Theorem opened_files_are_closed {W : Type} (h : handler W) (w : W) (d : driver)
    (output_dir : string) :
  let r := run h (download_images d output_dir) w in
  opened_ok r.2 = closed_paths r.2.
Proof.
  layout_download h w d output_dir; try reflexivity.
  pose proof (download_loop_files h output_dir imgs dl_init w1) as (_ & H2 & _).
  name_loop h output_dir imgs w1.
  assert (Ht : opened_ok tail = [] /\ closed_paths tail = [])
    by (destruct x; destruct Hx as [-> _]; auto).
  destruct Ht as (T1 & T2).
  unfold opened_ok, closed_paths in *. cbn [flat_map app].
  rewrite !flat_map_app, T1, T2, !app_nil_r. exact H2.
Qed.

Section FinalBody.
Variables (output_dir p : string).

Lemma final_body_untouched (l : list (string * list byte)) (init : option (list byte)) :
  (forall ub, In ub l -> path_of output_dir ub.1 <> p) ->
  final_body output_dir p l init = init.
Proof.
  revert init. induction l as [|[u b] l IH]; intros init Hl; [reflexivity|].
  unfold final_body. simpl. fold (final_body output_dir p l).
  destruct (String.eqb_spec (path_of output_dir u) p) as [Heq|Hne].
  - exfalso. apply (Hl (u, b)); [left; reflexivity | exact Heq].
  - apply IH. intros ub Hin. apply Hl. right. exact Hin.
Qed.

Lemma final_body_last (l1 l2 : list (string * list byte)) (u : string)
    (b : list byte) (init : option (list byte)) :
  path_of output_dir u = p ->
  (forall ub, In ub l2 -> path_of output_dir ub.1 <> p) ->
  final_body output_dir p (l1 ++ (u, b) :: l2) init = Some b.
Proof.
  intros Hu Hl2. unfold final_body. rewrite fold_left_app. simpl.
  rewrite Hu, String.eqb_refl. apply (final_body_untouched l2 (Some b) Hl2).
Qed.
End FinalBody.

(** X: what ends up on disk.  Take a run of [download_images] in which no
    [open] and no [write] raises.  A path to which no fetched URL maps keeps
    what it held.  A path to which fetched URLs map holds the body of the
    last of them: the file is overwritten, and when two URLs derive the same
    file name the later download replaces the earlier one. *)
Theorem disk_after_download {W : Type} (h : handler W) (w : W) (d : driver)
    (output_dir : string) :
  let r := run h (download_images d output_dir) w in
  write_faults r.2 = 0%nat ->
  forall (fs : gmap string (list byte)) (p : string),
    ((forall ub, In ub (fetched_ok r.2) -> path_of output_dir ub.1 <> p) ->
     fs_apply r.2 fs !! p = fs !! p)
    /\ (forall l1 u b l2,
          fetched_ok r.2 = l1 ++ (u, b) :: l2 ->
          path_of output_dir u = p ->
          (forall ub, In ub l2 -> path_of output_dir ub.1 <> p) ->
          fs_apply r.2 fs !! p = Some b).
Proof.
  cbv zeta.
  assert (Hgen : write_faults (run h (download_images d output_dir) w).2 = 0%nat ->
                 forall fs p,
                   fs_apply (run h (download_images d output_dir) w).2 fs !! p
                   = final_body output_dir p
                       (fetched_ok (run h (download_images d output_dir) w).2) (fs !! p)).
  { layout_download h w d output_dir; try reflexivity.
    pose proof (download_loop_disk h output_dir imgs dl_init w1) as Hl.
    name_loop h output_dir imgs w1.
    assert (Ht : write_faults tail = 0%nat /\ fetched_ok tail = []
                 /\ forall fs, fs_apply tail fs = fs)
      by (destruct x; destruct Hx as [-> _]; auto).
    destruct Ht as (T1 & T2 & T3).
    intros Hw fs p. cbn [fs_apply].
    unfold write_faults, fetched_ok in *. cbn [flat_map app] in *.
    rewrite flat_map_app, length_app in Hw.
    rewrite fs_apply_app, T3, flat_map_app, T2, app_nil_r. apply Hl. lia. }
  intros Hw fs p. rewrite (Hgen Hw). split.
  - apply final_body_untouched.
  - intros l1 u b l2 -> Hu Hl2. apply final_body_last; assumption.
Qed.

Lemma disk_after_download_witness :
  fs_apply (run scripted (download_images (Driver 0) "images") same_name).2 ∅
  !! "images/abc.png" = Some abc2_bytes.
Proof.
  refine (proj2 (disk_after_download scripted same_name (Driver 0) "images"
                   eq_refl ∅ "images/abc.png")
                [(abc_url, abc_bytes)] abc2_url abc2_bytes [] eq_refl eq_refl _).
  intros ub [].
Defined.

Section FetchPlan.
Context {W : Type} (h : handler W).
Variable output_dir : string.

(** What one pass reads and fetches, and what it does to [seen]. *)
Lemma download_item_reads (v : dl_vars) (img : element) (w : W) :
  let r := run h (download_item output_dir v img) w in
  (hrefs_read r.2 = [] /\ fetched_urls r.2 = [] /\ seen r.1.1.1 = seen v)
  \/ (exists a, hrefs_read r.2 = [a]
        /\ if skips (seen v) a
           then fetched_urls r.2 = [] /\ seen r.1.1.1 = seen v
           else exists u, a = Some u /\ fetched_urls r.2 = [u]
                          /\ seen r.1.1.1 = {[u]} ∪ seen v).
Proof.
  unfold download_item, item_except, write_file. exec h.
  all: try (left; repeat split; reflexivity).
  all: right; eexists; (split; [reflexivity|]); simpl; rewrite ?B; eauto.
Qed.

(** The loop fetches, in order, the first occurrence of every non-empty
    [href] it reads that is not in [seen] yet, and adds what it fetches to
    [seen]. *)
Lemma download_loop_plan (imgs : list element) (v : dl_vars) (w : W)
    (earlier : list string) :
  let r := run h (download_loop output_dir imgs v) w in
  lists_seen earlier v ->
  fetched_urls r.2 = to_fetch earlier (hrefs_read r.2)
  /\ seen r.1.1.1 = list_to_set (fetched_urls r.2) ∪ seen v
  /\ (length (hrefs_read r.2) <= length imgs)%nat.
Proof.
  revert v w earlier. induction imgs as [|img rest IH]; intros v w earlier.
  - simpl. intros _. repeat split; [|lia]. set_solver.
  - rewrite download_loop_cons, run_bind.
    pose proof (download_item_reads v img w) as Hi. cbv zeta in Hi.
    pose proof (download_item_counts h output_dir v img w) as Hc. cbv zeta in Hc.
    destruct (run h (download_item output_dir v img) w) as [[[v1 x] w1] t1].
    cbn [fst snd] in Hi, Hc. destruct Hc as (_ & Hx & _).
    destruct x as [e|].
    + cbn [fst snd]. simpl. rewrite app_nil_r. intros Hl.
      destruct (Hx ltac:(discriminate)) as [_ Hh].
      destruct Hi as [(_ & Hf & Hs) | (a & Ha & _)]; [|congruence].
      rewrite Hh, Hf, Hs. simpl. repeat split; [|lia]. set_solver.
    + specialize (IH v1 w1). cbv zeta in IH.
      destruct (run h (download_loop output_dir rest v1) w1) as [[[v2 x2] w2] t2].
      cbn [fst snd] in *. intros Hl.
      rewrite fetched_urls_app, hrefs_read_app, length_app.
      destruct Hi as [(Hh & Hf & Hs) | (a & Ha & Hcase)].
      * destruct (IH earlier) as (J1 & J2 & J3).
        { intros u. rewrite Hs. apply Hl. }
        rewrite Hh, Hf, J2, Hs. simpl. repeat split; auto; lia.
      * rewrite Ha. destruct a as [u|]; simpl in Hcase |- *.
        -- rewrite (skips_earlier earlier v u Hl) in Hcase.
           destruct (String.eqb u "" || existsb (String.eqb u) earlier)%bool.
           ++ destruct Hcase as [Hf Hs].
              destruct (IH earlier) as (J1 & J2 & J3).
              { intros u'. rewrite Hs. apply Hl. }
              rewrite Hf, J2, Hs. simpl. repeat split; auto; lia.
           ++ destruct Hcase as (u' & [= <-] & Hf & Hs).
              destruct (IH (u :: earlier)) as (J1 & J2 & J3).
              { intros u'. rewrite Hs, elem_of_union, elem_of_singleton, (Hl u').
                simpl. split; intros [Hx'|Hx']; auto. }
              rewrite Hf, J2, Hs. simpl. rewrite J1.
              repeat split; auto; [set_solver | lia].
        -- destruct Hcase as [Hf Hs].
           destruct (IH earlier) as (J1 & J2 & J3).
           { intros u'. rewrite Hs. apply Hl. }
           rewrite Hf, J2, Hs. simpl. repeat split; auto; lia.
Qed.
End FetchPlan.

(** X: the fetch plan.  In every run of [download_images] the URLs handed to
    [requests.get] are, in order, the non-empty [href]s read from the links,
    each at its first occurrence: no such [href] is left out, none is
    fetched twice, and nothing else is fetched. *)
Theorem fetches_are_first_occurrences {W : Type} (h : handler W) (w : W)
    (d : driver) (output_dir : string) :
  let r := run h (download_images d output_dir) w in
  fetched_urls r.2 = to_fetch [] (hrefs_read r.2).
Proof.
  layout_download h w d output_dir; try reflexivity.
  pose proof (download_loop_plan h output_dir imgs dl_init w1 []) as Hl.
  cbv zeta in Hl.
  name_loop h output_dir imgs w1.
  destruct Hl as (H1 & _).
  { intros u. split; [intros Hu; apply not_elem_of_empty in Hu as [] | intros []]. }
  assert (Ht : fetched_urls tail = [] /\ hrefs_read tail = [])
    by (destruct x; destruct Hx as [-> _]; auto).
  destruct Ht as (T1 & T2).
  cbn [fetched_urls hrefs_read].
  rewrite fetched_urls_app, hrefs_read_app, T1, T2, !app_nil_r. exact H1.
Qed.

Section Partition.
Context {W : Type} (h : handler W).
Variable output_dir : string.

(** A pass reads the attribute once; when the read succeeds [url] is bound
    afterwards and no exception leaves the pass. *)
Lemma download_item_attr (v : dl_vars) (img : element) (w : W) :
  let r := run h (download_item output_dir v img) w in
  exists x, attr_answers r.2 = [x]
    /\ match x with
       | Ok _ => r.1.1.2 = None /\ url r.1.1.1 <> None
       | Raise _ => True
       end.
Proof.
  unfold download_item, item_except, write_file. exec h.
  all: eexists; (split; [reflexivity|]); simpl; auto; split; congruence.
Qed.

(** When the first attribute read succeeds the loop runs to its end, with
    one attribute read per link, and the counters add up to the number of
    links. *)
Lemma download_loop_completes (imgs : list element) (w : W) (a : option string)
    (rest : list (result (option string))) :
  let r := run h (download_loop output_dir imgs dl_init) w in
  attr_answers r.2 = Ok a :: rest ->
  r.1.1.2 = None
  /\ downloaded r.1.1.1 + skipped r.1.1.1 + errors r.1.1.1 = Z.of_nat (length imgs).
Proof.
  destruct imgs as [|img imgs]; [discriminate|].
  rewrite download_loop_cons, run_bind.
  pose proof (download_item_attr dl_init img w) as Hi. cbv zeta in Hi.
  pose proof (download_item_counts h output_dir dl_init img w) as Hc. cbv zeta in Hc.
  destruct (run h (download_item output_dir dl_init img) w) as [[[v1 x] w1] t1].
  cbn [fst snd] in Hi, Hc. destruct Hi as (x0 & Ha & Hx0). destruct Hc as (Hsum & _).
  destruct x as [e|].
  - cbn [fst snd]. simpl. rewrite app_nil_r, Ha. intros [= ->].
    destruct Hx0 as [Hn _]. discriminate Hn.
  - pose proof (download_loop_partition h output_dir imgs v1 w1) as Hp.
    cbv zeta in Hp.
    destruct (run h (download_loop output_dir imgs v1) w1) as [[[v2 x2] w2] t2].
    cbn [fst snd] in *. unfold attr_answers. rewrite flat_map_app.
    fold (attr_answers t1). rewrite Ha. simpl. intros [= ->].
    destruct Hx0 as [_ Hb]. destruct Hp as [Hp1 Hp2].
    specialize (Hp2 Hb). split; [exact Hp2|].
    specialize (Hp1 Hp2). simpl in Hsum. lia.
Qed.
End Partition.

(** X: the counters partition the links.  Take a run of [download_images]
    that finds [N] links and in which the first attribute read does not
    raise (or there is no link at all).  Then no exception leaves the loop,
    whatever goes wrong later (failed attribute reads, failed fetches,
    failed writes): the run ends normally with a result line, and the three
    counters logged there add up to [N]. *)
Theorem counters_add_up {W : Type} (h : handler W) (w : W) (d : driver)
    (output_dir : string) (imgs : list element) :
  let r := run h (download_images d output_dir) w in
  links_found r.2 = Some imgs ->
  (imgs = [] \/ exists a rest, attr_answers r.2 = Ok a :: rest) ->
  r.1.1 = Ok tt
  /\ exists dl sk er,
      List.last r.2 (ELog INFO "") = ELog INFO (results_msg dl sk er)
      /\ dl + sk + er = Z.of_nat (length imgs).
Proof.
  layout_download h w d output_dir; try discriminate.
  intros Hf Hfirst. simpl in Hf. injection Hf as ->.
  assert (Hend : (run h (download_loop output_dir imgs dl_init) w1).1.1.2 = None
                 /\ downloaded (run h (download_loop output_dir imgs dl_init) w1).1.1.1
                    + skipped (run h (download_loop output_dir imgs dl_init) w1).1.1.1
                    + errors (run h (download_loop output_dir imgs dl_init) w1).1.1.1
                    = Z.of_nat (length imgs)).
  { destruct Hfirst as [-> | (a & rest & Ha)]; [simpl; auto|].
    pose proof (download_loop_completes h output_dir imgs w1 a) as Hl. cbv zeta in Hl.
    name_loop h output_dir imgs w1.
    assert (Ht : attr_answers tail = [])
      by (destruct x; destruct Hx as [-> _]; auto).
    unfold attr_answers in Ha, Hl, Ht. cbn [flat_map app] in Ha.
    rewrite flat_map_app, Ht, app_nil_r in Ha. apply (Hl rest Ha). }
  name_loop h output_dir imgs w1. destruct Hend as [-> Hsum].
  destruct Hx as [-> ->]. split; [reflexivity|].
  exists (downloaded v), (skipped v), (errors v). split; [|exact Hsum].
  assert (Hlast : forall (l : trace) e, List.last (l ++ [e]) (ELog INFO "") = e)
    by (intros; apply last_last).
  exact (Hlast (_ :: _ :: _ :: _ :: t) _).
Qed.

Lemma counters_add_up_witness :
  let r := run scripted (download_images (Driver 0) "images") gallery in
  r.1.1 = Ok tt
  /\ exists dl sk er,
      List.last r.2 (ELog INFO "") = ELog INFO (results_msg dl sk er)
      /\ dl + sk + er = 4.
Proof.
  apply (counters_add_up scripted gallery (Driver 0) "images"
           [WebElement 1; WebElement 2; WebElement 3; WebElement 4] eq_refl).
  right. do 2 eexists. reflexivity.
Defined.

Section DownloadFootprint.
Context {W : Type} (h : handler W).
Variable output_dir : string.

Lemma download_item_footprint (v : dl_vars) (img : element) (w : W) :
  Forall item_event (run_trace h (download_item output_dir v img) w).
Proof.
  unfold run_trace, download_item, item_except, write_file. exec h.
  all: repeat constructor.
Qed.

Lemma download_loop_footprint (imgs : list element) (v : dl_vars) (w : W) :
  Forall item_event (run_trace h (download_loop output_dir imgs v) w).
Proof.
  unfold run_trace. revert v w. induction imgs as [|img rest IH]; intros v w.
  - constructor.
  - rewrite download_loop_cons, run_bind.
    pose proof (download_item_footprint v img w) as Hi. unfold run_trace in Hi.
    destruct (run h (download_item output_dir v img) w) as [[[v1 x] w1] t1].
    cbn [fst snd] in Hi. destruct x as [e|].
    + simpl. rewrite app_nil_r. exact Hi.
    + specialize (IH v1 w1).
      destruct (run h (download_loop output_dir rest v1) w1) as [[r w2] t2].
      cbn [fst snd] in *. apply Forall_app. split; assumption.
Qed.
End DownloadFootprint.

Lemma item_event_download_event (d : driver) (output_dir : string) (e : event) :
  item_event e -> download_event d output_dir e.
Proof. destruct e; simpl; intros He; try contradiction; auto. Qed.

(** X: what [download_images] touches.  In every run, [download_images]
    creates no directory but [output_dir], makes no element query but the
    one for CDN links on its driver, reads no attribute but [href], gives
    every GET the 10-second timeout, and apart from that only logs and
    opens, writes and closes files: it runs no script, never sleeps or reads
    the clock, never navigates and never quits the browser. *)
Theorem download_images_footprint {W : Type} (h : handler W) (w : W) (d : driver)
    (output_dir : string) :
  Forall (download_event d output_dir) (run h (download_images d output_dir) w).2.
Proof.
  layout_download h w d output_dir.
  - repeat constructor.
  - repeat constructor.
  - pose proof (download_loop_footprint h output_dir imgs dl_init w1) as Hl.
    unfold run_trace in Hl. name_loop h output_dir imgs w1.
    do 4 (constructor; [simpl; auto|]).
    apply Forall_app. split.
    + eapply Forall_impl; [exact Hl|]. apply item_event_download_event.
    + destruct x; destruct Hx as [-> _]; repeat constructor.
Qed.

(** X: when the directory cannot be created.  If [os.makedirs] raises, the
    exception leaves [download_images] at once: nothing is logged, the page
    is not queried, nothing is fetched. *)
Theorem makedirs_failure_propagates {W : Type} (h : handler W) (w : W)
    (d : driver) (output_dir : string) (e : exn) :
  let r := run h (download_images d output_dir) w in
  In (EMakedirs output_dir (Raise e)) r.2 ->
  r.2 = [EMakedirs output_dir (Raise e)] /\ r.1.1 = Raise e.
Proof.
  layout_download h w d output_dir.
  - intros [[= ->]|[]]. auto.
  - intros [Hc|[Hc|[Hc|[Hc|[]]]]]; discriminate Hc.
  - intros [Hc|[Hc|[Hc|[Hc|Hin]]]]; try discriminate Hc.
    exfalso.
    pose proof (download_loop_footprint h output_dir imgs dl_init w1) as Hl.
    unfold run_trace in Hl. name_loop h output_dir imgs w1.
    apply in_app_or in Hin as [Hin|Hin].
    + rewrite Forall_forall in Hl. apply list_elem_of_In in Hin. apply (Hl _ Hin).
    + destruct x; destruct Hx as [-> _]; simpl in Hin; [contradiction|].
      destruct Hin as [Hc|[]]. discriminate Hc.
Qed.

(** X: when the page cannot be queried.  If the query for the links raises,
    [download_images] logs the error and returns normally: no attribute is
    read, nothing is fetched or written, and no result line is logged. *)
Theorem link_query_failure_is_swallowed {W : Type} (h : handler W) (w : W)
    (d : driver) (output_dir : string) (e : exn) :
  let r := run h (download_images d output_dir) w in
  In (EFind d css_selector media_selector (Raise e)) r.2 ->
  r.1.1 = Ok tt
  /\ r.2 = [EMakedirs output_dir (Ok tt);
            ELog INFO ("Download immagini nella cartella: " +:+ output_dir);
            EFind d css_selector media_selector (Raise e);
            ELog ERROR ("Errore cercando immagini: " +:+ exn_msg e)].
Proof.
  layout_download h w d output_dir.
  - intros [Hc|[]]. discriminate Hc.
  - intros [Hc|[Hc|[[= ->]|[Hc|[]]]]]; try discriminate Hc. auto.
  - intros [Hc|[Hc|[Hc|[Hc|Hin]]]]; try discriminate Hc.
    exfalso.
    pose proof (download_loop_footprint h output_dir imgs dl_init w1) as Hl.
    unfold run_trace in Hl. name_loop h output_dir imgs w1.
    apply in_app_or in Hin as [Hin|Hin].
    + rewrite Forall_forall in Hl. apply list_elem_of_In in Hin. apply (Hl _ Hin).
    + destruct x; destruct Hx as [-> _]; simpl in Hin; [contradiction|].
      destruct Hin as [Hc|[]]. discriminate Hc.
Qed.

Lemma makedirs_failure_propagates_witness :
  (run no_mkdir (download_images (Driver 0) "images") gallery).1.1
  = Raise permission_denied.
Proof.
  refine (proj2 (makedirs_failure_propagates no_mkdir gallery (Driver 0) "images"
                   permission_denied _)).
  left. reflexivity.
Defined.

Lemma link_query_failure_is_swallowed_witness :
  (run scripted (download_images (Driver 0) "images") unreachable_page).1.1 = Ok tt.
Proof.
  refine (proj1 (link_query_failure_is_swallowed scripted unreachable_page (Driver 0)
                   "images" detached _)).
  right. right. left. reflexivity.
Defined.

(** * Further properties of the file name *)

Section Chars.
Variable c : ascii.

Lemma has_char_app (a b : string) :
  has_char c (a +:+ b) = (has_char c a || has_char c b)%bool.
Proof.
  induction a as [|x a IH]; rewrite ?append_nil, ?append_cons; simpl; [reflexivity|].
  rewrite IH. apply orb_assoc.
Qed.

(** A string without [c], or its part after the last [c]. *)
Lemma split_at_last (s : string) :
  has_char c s = false
  \/ exists p n, s = p +:+ String c n /\ has_char c n = false.
Proof.
  induction s as [|a s IH]; [left; reflexivity|].
  destruct IH as [Hs | (p & n & -> & Hn)].
  - destruct (Ascii.eqb_spec a c) as [->|Hne].
    + right. exists "", s. auto.
    + left. simpl. apply Ascii.eqb_neq in Hne. rewrite Hne. exact Hs.
  - right. exists (String a p), n. auto.
Qed.

(** A string without [c], or its part before the first [c]. *)
Lemma split_at_first (s : string) :
  has_char c s = false
  \/ exists p q, s = p +:+ String c q /\ has_char c p = false.
Proof.
  induction s as [|a s IH]; [left; reflexivity|].
  destruct (Ascii.eqb_spec a c) as [->|Hne].
  - right. exists "", s. auto.
  - apply Ascii.eqb_neq in Hne. destruct IH as [Hs | (p & q & -> & Hp)].
    + left. simpl. rewrite Hne. exact Hs.
    + right. exists (String a p), q. split; [reflexivity|]. simpl. rewrite Hne. exact Hp.
Qed.
End Chars.

(** [basename] returns a suffix without [/]. *)
Lemma basename_suffix (s : string) :
  has_char "/" (basename s) = false /\ exists p, s = p +:+ basename s.
Proof.
  destruct (split_at_last "/" s) as [Hs | (p & n & -> & Hn)].
  - rewrite (proj2 (basename_last_component "" s Hs)). split; [exact Hs|].
    exists "". reflexivity.
  - change (p +:+ String "/" n) with (p +:+ "/" +:+ n).
    rewrite (proj1 (basename_last_component p n Hn)). split; [exact Hn|].
    exists (p +:+ "/"). rewrite append_assoc. reflexivity.
Qed.

(** The part before the first [?] has no [?]. *)
Lemma before_query (u : string) :
  has_char "?" (hd "" (py_split "?" u)) = false.
Proof.
  destruct (split_at_first "?" u) as [Hu | (p & q & -> & Hp)].
  - rewrite (proj2 (hd_py_split "?" u "" Hu)). exact Hu.
  - rewrite (proj1 (hd_py_split "?" p q Hp)). exact Hp.
Qed.

(** X: the derived file name is a single path component.  For every URL
    the name derived on line 117 contains neither [/] nor [?], and deriving
    a name from it again gives the same name.  So for a non-empty
    [output_dir] the path of line 118 is [output_dir], a single [/] unless
    [output_dir] already ends in one, and the name: the file always lies
    directly in [output_dir]. *)
Theorem file_name_is_one_component (u : string) :
  has_char "/" (file_name_of u) = false
  /\ has_char "?" (file_name_of u) = false
  /\ file_name_of (file_name_of u) = file_name_of u
  /\ forall output_dir,
      output_dir <> "" ->
      path_of output_dir u
      = (if endswith output_dir "/" then output_dir else output_dir +:+ "/")
        +:+ file_name_of u.
Proof.
  unfold path_of, file_name_of.
  destruct (basename_suffix (hd "" (py_split "?" u))) as [Hs (p & Hp)].
  assert (Hq : has_char "?" (basename (hd "" (py_split "?" u))) = false).
  { pose proof (before_query u) as Hb. rewrite Hp, has_char_app in Hb.
    apply orb_false_elim in Hb as [_ Hb]. exact Hb. }
  split; [exact Hs|]. split; [exact Hq|]. split.
  - rewrite (proj2 (hd_py_split "?" _ "" Hq)).
    apply (proj2 (basename_last_component "" _ Hs)).
  - intros output_dir Hne. unfold path_join.
    assert (Hst : startswith (basename (hd "" (py_split "?" u))) "/" = false).
    { destruct (basename (hd "" (py_split "?" u))) as [|a n]; [reflexivity|].
      simpl in Hs |- *. apply orb_false_elim in Hs as [Ha _]. exact Ha. }
    rewrite Hst. destruct output_dir as [|a od]; [contradiction|].
    simpl. destruct (endswith (String a od) "/"); [reflexivity|].
    rewrite append_assoc. reflexivity.
Qed.

Lemma file_name_is_one_component_witness :
  path_of "images/" abc_url = "images/abc.png"
  /\ path_of "images" abc_url = "images/abc.png".
Proof.
  split.
  - rewrite (proj2 (proj2 (proj2 (file_name_is_one_component abc_url))) "images/")
      by discriminate. reflexivity.
  - rewrite (proj2 (proj2 (proj2 (file_name_is_one_component abc_url))) "images")
      by discriminate. reflexivity.
Defined.

(** * Further properties of the scroll driver *)

(** Every way a run of [scroll_to_bottom] can be laid out. *)
Lemma scroll_to_bottom_layout {W : Type} (h : handler W) (w : W)
    (fuel : nat) (d : driver) (max_scrolls : Z) (pause : Q) (timeout : Z) :
  let r := run h (scroll_to_bottom fuel d max_scrolls pause timeout) w in
  (exists m e, r.2 = [ELog INFO m; EScript d height_script (Raise e)]
               /\ r.1.1 = Some (Raise e))
  \/ (exists m h0 start w2,
        let l := run h (scroll_loop fuel d max_scrolls pause timeout start
                          (ScrollVars h0 0)) w2 in
        exists tail,
        r.2 = ELog INFO m :: EScript d height_script (Ok h0) :: ETime start
              :: l.2 ++ tail
        /\ match l.1.1 with
           | None => tail = [] /\ r.1.1 = None
           | Some (_, Some e) => tail = [] /\ r.1.1 = Some (Raise e)
           | Some (v, None) =>
             tail = [ELog INFO ("Scrolling completato dopo "
                                +:+ pretty (scroll_attempts v) +:+ " tentativi")]
             /\ r.1.1 = Some (Ok tt)
           end).
Proof.
  unfold scroll_to_bottom. simpl.
  destruct (h _ (LogMsg INFO _) w) as [[] w0]. simpl.
  destruct (h _ (ExecuteScript d height_script) w0) as [[h0|e] w1]; simpl.
  2:{ left. eauto. }
  destruct (h _ TimeTime w1) as [start w2]. simpl.
  rewrite run_bind. right. eexists. exists h0, start, w2. cbv zeta.
  destruct (run h (scroll_loop fuel d max_scrolls pause timeout start (ScrollVars h0 0)) w2)
    as [[r w3] t].
  destruct r as [[v [e|]]|]; simpl.
  - exists []. auto.
  - destruct (h _ (LogMsg INFO _) w3) as [[] w4]. simpl. eexists. auto.
  - exists []. auto.
Qed.

Ltac layout_scroll h w fuel d max_scrolls pause timeout :=
  let Hrun := fresh "Hrun" in
  pose proof (scroll_to_bottom_layout h w fuel d max_scrolls pause timeout) as Hrun;
  cbv zeta in Hrun;
  destruct (run h (scroll_to_bottom fuel d max_scrolls pause timeout) w)
    as [[?rv ?rw] ?rt];
  cbn [fst snd] in Hrun |- *;
  destruct Hrun as [(?m & ?e & -> & ->)
                   | (?m & ?h0 & ?start & ?w2 & ?tail & -> & ?Hx)].

Section ScrollFootprint.
Context {W : Type} (h : handler W).
Variables (d : driver) (max_scrolls : Z) (pause : Q) (timeout : Z) (start_time : Q).

Lemma scroll_iteration_footprint (v : scroll_vars) (w : W) :
  Forall (scroll_event d pause)
         (run_trace h (scroll_iteration d pause timeout start_time v) w).
Proof.
  unfold run_trace, scroll_iteration. exec h.
  all: repeat (constructor; [simpl; auto|]); constructor.
Qed.

Lemma scroll_loop_footprint (fuel : nat) (v : scroll_vars) (w : W) :
  Forall (scroll_event d pause)
         (run_trace h (scroll_loop fuel d max_scrolls pause timeout start_time v) w).
Proof.
  unfold run_trace. revert v w. induction fuel as [|fuel IH]; intros v w.
  - constructor.
  - rewrite scroll_loop_S. destruct (scroll_attempts v <? max_scrolls).
    2:{ constructor. }
    rewrite run_bind.
    pose proof (scroll_iteration_footprint v w) as Hi. unfold run_trace in Hi.
    destruct (run h (scroll_iteration d pause timeout start_time v) w)
      as [[[v1 f] w1] t1]. cbn [fst snd] in Hi.
    destruct f.
    + specialize (IH v1 w1).
      destruct (run h (scroll_loop fuel d max_scrolls pause timeout start_time v1) w1)
        as [[r w2] t2]. cbn [fst snd] in *. apply Forall_app. split; assumption.
    + simpl. rewrite app_nil_r. exact Hi.
    + simpl. rewrite app_nil_r. exact Hi.
Qed.

(** A pass ends with [break] only on the timeout or on the marker. *)
Lemma scroll_iteration_break (v : scroll_vars) (w : W) :
  let r := run h (scroll_iteration d pause timeout start_time v) w in
  r.1.1.2 = Break ->
  In (ELog INFO (timeout_msg timeout)) r.2 \/ existsb marker_found r.2 = true.
Proof.
  unfold scroll_iteration. exec h; intros Hb; try discriminate Hb.
  - left. simpl. auto 10.
  - right. reflexivity.
Qed.

(** A loop that is left normally without a timeout and without the marker
    was left because [scroll_attempts] reached [max_scrolls]. *)
Lemma scroll_loop_exhausts (fuel : nat) (v : scroll_vars) (w : W) :
  let r := run h (scroll_loop fuel d max_scrolls pause timeout start_time v) w in
  forall v', r.1.1 = Some (v', None) ->
  ~ In (ELog INFO (timeout_msg timeout)) r.2 ->
  existsb marker_found r.2 = false ->
  max_scrolls <= scroll_attempts v'.
Proof.
  revert v w. induction fuel as [|fuel IH]; intros v w.
  - simpl. discriminate.
  - rewrite scroll_loop_S.
    destruct (Z.ltb_spec (scroll_attempts v) max_scrolls) as [Hlt|Hge].
    2:{ simpl. intros v' [= <-] _ _. exact Hge. }
    rewrite run_bind.
    pose proof (scroll_iteration_break v w) as Hi. cbv zeta in Hi.
    destruct (run h (scroll_iteration d pause timeout start_time v) w)
      as [[[v1 f] w1] t1]. cbn [fst snd] in Hi.
    destruct f.
    + specialize (IH v1 w1). cbv zeta in IH.
      destruct (run h (scroll_loop fuel d max_scrolls pause timeout start_time v1) w1)
        as [[r w2] t2]. cbn [fst snd] in *.
      intros v' Hr Ht Hm. rewrite existsb_app in Hm.
      apply orb_false_elim in Hm as [_ Hm].
      apply (IH v' Hr); [|exact Hm]. intros Hin. apply Ht. apply in_or_app. auto.
    + simpl. rewrite app_nil_r. intros v' _ Ht Hm.
      destruct (Hi eq_refl) as [Hin|Hex]; [contradiction | congruence].
    + simpl. discriminate.
Qed.
End ScrollFootprint.

(** X: what [scroll_to_bottom] touches.  In every run, [scroll_to_bottom]
    only logs, reads the clock, sleeps for [pause] or [pause * 2], runs the
    scroll script and the height script on its driver and queries that
    driver for the end-of-messages marker: it makes no HTTP request, touches
    no file, never navigates and never quits the browser. *)
Theorem scroll_to_bottom_footprint {W : Type} (h : handler W) (w : W)
    (fuel : nat) (d : driver) (max_scrolls : Z) (pause : Q) (timeout : Z) :
  Forall (scroll_event d pause)
         (run h (scroll_to_bottom fuel d max_scrolls pause timeout) w).2.
Proof.
  layout_scroll h w fuel d max_scrolls pause timeout.
  - repeat (constructor; [simpl; auto|]). constructor.
  - pose proof (scroll_loop_footprint h d max_scrolls pause timeout start fuel
                  (ScrollVars h0 0) w2) as Hl. unfold run_trace in Hl.
    destruct (run h (scroll_loop fuel d max_scrolls pause timeout start (ScrollVars h0 0)) w2)
      as [[r w3] t]. cbn [fst snd] in *.
    do 3 (constructor; [simpl; auto|]).
    apply Forall_app. split; [exact Hl|].
    destruct r as [[v [e|]]|]; destruct Hx as [-> _]; repeat constructor.
Qed.

(** X: the closing log line is accurate.  When [scroll_to_bottom] returns
    normally, the last thing it does is log "Scrolling completato dopo n
    tentativi", and [n] is the number of scroll commands it sent to the
    browser. *)
Theorem scroll_attempts_are_reported {W : Type} (h : handler W) (w : W)
    (fuel : nat) (d : driver) (max_scrolls : Z) (pause : Q) (timeout : Z) :
  let r := run h (scroll_to_bottom fuel d max_scrolls pause timeout) w in
  r.1.1 = Some (Ok tt) ->
  List.last r.2 (ELog DEBUG "")
  = ELog INFO ("Scrolling completato dopo "
               +:+ pretty (Z.of_nat (scroll_commands r.2)) +:+ " tentativi").
Proof.
  layout_scroll h w fuel d max_scrolls pause timeout; [discriminate|].
  pose proof (scroll_loop_bound h d max_scrolls pause timeout start fuel
                (ScrollVars h0 0) w2) as [_ Hb]. cbv zeta in Hb.
  destruct (run h (scroll_loop fuel d max_scrolls pause timeout start (ScrollVars h0 0)) w2)
    as [[r w3] t]. cbn [fst snd] in *.
  destruct r as [[v [e|]]|]; destruct Hx as [-> ->]; try discriminate.
  intros _. specialize (Hb v None eq_refl). simpl in Hb. rewrite Z.add_0_l in Hb.
  match goal with
  | |- context [scroll_commands ?l] =>
    assert (Hc : scroll_commands l = scroll_commands t)
      by (autorewrite with traces; simpl; lia);
    rewrite Hc
  end.
  rewrite <- Hb.
  assert (Hlast : forall (l : trace) e, List.last (l ++ [e]) (ELog DEBUG "") = e)
    by (intros; apply last_last).
  exact (Hlast (_ :: _ :: _ :: t) _).
Qed.

Lemma scroll_attempts_are_reported_witness :
  List.last (run scripted (scroll_to_bottom 4 (Driver 0) 3 20 30) still_page).2
            (ELog DEBUG "")
  = ELog INFO "Scrolling completato dopo 2 tentativi".
Proof.
  exact (scroll_attempts_are_reported scripted still_page 4 (Driver 0) 3 20 30 eq_refl).
Defined.

(** X: the driver does not give up early.  When [scroll_to_bottom] returns
    normally without having logged the timeout and without having found the
    end-of-messages marker, it has sent exactly [max_scrolls] scroll
    commands (none when [max_scrolls] is negative). *)
Theorem scrolling_runs_to_max_scrolls {W : Type} (h : handler W) (w : W)
    (fuel : nat) (d : driver) (max_scrolls : Z) (pause : Q) (timeout : Z) :
  let r := run h (scroll_to_bottom fuel d max_scrolls pause timeout) w in
  r.1.1 = Some (Ok tt) ->
  ~ In (ELog INFO (timeout_msg timeout)) r.2 ->
  existsb marker_found r.2 = false ->
  scroll_commands r.2 = Z.to_nat max_scrolls.
Proof.
  layout_scroll h w fuel d max_scrolls pause timeout; [discriminate|].
  pose proof (scroll_loop_bound h d max_scrolls pause timeout start fuel
                (ScrollVars h0 0) w2) as [Hle Hb]. cbv zeta in Hle, Hb.
  pose proof (scroll_loop_exhausts h d max_scrolls pause timeout start fuel
                (ScrollVars h0 0) w2) as He. cbv zeta in He.
  destruct (run h (scroll_loop fuel d max_scrolls pause timeout start (ScrollVars h0 0)) w2)
    as [[r w3] t]. cbn [fst snd] in *.
  destruct r as [[v [e|]]|]; destruct Hx as [-> ->]; try discriminate.
  intros _ Ht Hm. specialize (Hb v None eq_refl). simpl in Hb, Hle.
  rewrite Z.add_0_l in Hb. rewrite Z.sub_0_r in Hle.
  assert (Hge : max_scrolls <= scroll_attempts v).
  { apply (He v eq_refl).
    - intros Hin. apply Ht. do 3 right. apply in_or_app. auto.
    - simpl in Hm. rewrite existsb_app in Hm.
      apply orb_false_elim in Hm as [Hm _]. exact Hm. }
  autorewrite with traces. simpl. lia.
Qed.

Lemma scrolling_runs_to_max_scrolls_witness :
  scroll_commands (run scripted (scroll_to_bottom 4 (Driver 0) 2 1 30) growing_page).2
  = Z.to_nat 2.
Proof.
  apply (scrolling_runs_to_max_scrolls scripted growing_page 4 (Driver 0) 2 1 30).
  - reflexivity.
  - vm_compute. intros Hin.
    repeat (destruct Hin as [Hin|Hin]; [discriminate Hin|]). exact Hin.
  - reflexivity.
Defined.
